(** * Wiresense: a shallow embedding of [wiresense/wiresense.py]

    The module keeps a process-wide registry of sensors, appends every
    reading to a per-sensor CSV file, pushes every reading to the connected
    WebSocket clients and serves the CSV files over HTTP.

    The embedding follows the source function by function.  The mutable
    process state (class attributes [Wiresense.sensors] and
    [Wiresense.configured], the module-level set [active_connections]) and
    the parts of the environment the code talks to (file system, clock,
    sockets, listening endpoints, log records) are the fields of one record
    [World]; every Python function becomes a function in a state-and-exception
    monad over it.  A raised exception keeps the mutations made before it, as
    in Python.

    The coroutines are embedded as run to completion one after the other:
    no other task is interleaved at an [await]. *)

From Stdlib Require Import ZArith Ascii String List Lia Bool.
From stdpp Require Import base decidable option list gmap strings pretty.

Local Open Scope string_scope.
Local Open Scope list_scope.

(** ** Python strings

    A Python [str] is embedded as a Rocq [string]; each character stands for
    the code point of the same number, so the strings covered are those whose
    code points are below 256. *)

Module Str.

Definition dquote : ascii := "034"%char.
Definition backslash : ascii := "092"%char.
Definition CR : ascii := "013"%char.
Definition LF : ascii := "010"%char.
Definition HT : ascii := "009"%char.
Definition BS : ascii := "008"%char.
Definition FF : ascii := "012"%char.

Definition str1 (c : ascii) : string := String c EmptyString.

(** [c in s] for a one-character [c]. *)
Fixpoint contains (c : ascii) (s : string) : bool :=
  match s with
  | EmptyString => false
  | String a s' => if Ascii.eqb a c then true else contains c s'
  end.

(** [s.replace(c, rep)] for a one-character [c]. *)
Fixpoint replace (c : ascii) (rep : string) (s : string) : string :=
  match s with
  | EmptyString => EmptyString
  | String a s' =>
      if Ascii.eqb a c then rep +:+ replace c rep s'
      else String a (replace c rep s')
  end.

(** [s.split(c)] for a one-character separator: never the empty list. *)
Fixpoint split (c : ascii) (s : string) : list string :=
  match s with
  | EmptyString => [EmptyString]
  | String a s' =>
      if Ascii.eqb a c then EmptyString :: split c s'
      else match split c s' with
           | [] => [str1 a]
           | p :: ps => String a p :: ps
           end
  end.

(** [sep.join(l)]. *)
Fixpoint join (sep : string) (l : list string) : string :=
  match l with
  | [] => EmptyString
  | [x] => x
  | x :: l' => x +:+ sep +:+ join sep l'
  end.

(** [s.rfind(c)]: the index of the last occurrence, -1 when there is none. *)
Fixpoint rfind_from (c : ascii) (s : string) (i last : Z) : Z :=
  match s with
  | EmptyString => last
  | String a s' => rfind_from c s' (i + 1)%Z (if Ascii.eqb a c then i else last)
  end.

Definition rfind (c : ascii) (s : string) : Z := rfind_from c s 0%Z (-1)%Z.

(** The slices [s[:i]] and [s[i:]] for [0 <= i]. *)
Fixpoint take (n : nat) (s : string) : string :=
  match n, s with
  | S n', String a s' => String a (take n' s')
  | _, _ => EmptyString
  end.

Fixpoint drop (n : nat) (s : string) : string :=
  match n, s with
  | S n', String _ s' => drop n' s'
  | _, _ => s
  end.

(** [s.rstrip(c)]. *)
Fixpoint rstrip (c : ascii) (s : string) : string :=
  match s with
  | EmptyString => EmptyString
  | String a s' =>
      match rstrip c s' with
      | EmptyString => if Ascii.eqb a c then EmptyString else str1 a
      | r => String a r
      end
  end.

(** [s == c * len(s)]. *)
Fixpoint all_char (c : ascii) (s : string) : bool :=
  match s with
  | EmptyString => true
  | String a s' => Ascii.eqb a c && all_char c s'
  end.

Definition is_empty (s : string) : bool :=
  match s with EmptyString => true | _ => false end.

End Str.

(** ** Python values

    What a reader function can return: a scalar, or a mapping from string
    keys to scalars, kept as the list of its items in insertion order.  A
    finite float is carried by its [repr] text, which is what both
    [json.dumps] and [csv.writer] print. *)

Inductive scalar :=
  | PyNone
  | PyBool (b : bool)
  | PyInt (n : Z)
  | PyFloat (repr : string)
  | PyStr (s : string).

Inductive pyobj :=
  | Scalar (v : scalar)
  | Dict (items : list (string * scalar)).

Definition keys (items : list (string * scalar)) : list string := fst <$> items.
Definition values (items : list (string * scalar)) : list scalar := snd <$> items.

(** [isinstance(data, dict)] and the truth value of [data]. *)
Definition isinstance_dict (data : pyobj) : bool :=
  match data with Dict _ => true | Scalar _ => false end.

Definition truthy (data : pyobj) : bool :=
  match data with
  | Dict [] => false
  | Dict _ => true
  | Scalar PyNone => false
  | Scalar (PyBool b) => b
  | Scalar (PyInt n) => negb (n =? 0)%Z
  | Scalar (PyFloat r) => negb (String.eqb r "0.0" || String.eqb r "-0.0")
  | Scalar (PyStr s) => negb (Str.is_empty s)
  end.

(** The test of both validations:
    [not isinstance(data, dict) or not data]. *)
Definition invalid_reading (data : pyobj) : bool :=
  negb (isinstance_dict data) || negb (truthy data).

(** ** Library functions the module calls *)

(** *** [csv.writer(f).writerow(row)], default dialect

    Delimiter [,], quote character double quote, [QUOTE_MINIMAL], doubled
    quotes, line terminator CR LF.  [None] is written as the empty field,
    every other non-string with [str()]. *)

Module Csv.

Definition field_text (v : scalar) : string :=
  match v with
  | PyNone => EmptyString
  | PyBool true => "True"
  | PyBool false => "False"
  | PyInt n => pretty n
  | PyFloat r => r
  | PyStr s => s
  end.

Definition special (c : ascii) : bool :=
  Ascii.eqb c ","%char || Ascii.eqb c Str.dquote
  || Ascii.eqb c Str.CR || Ascii.eqb c Str.LF.

(** The pass over the field's characters: the text with every quote
    character doubled, and whether the field has to be quoted. *)
Fixpoint scan (s : string) : string * bool :=
  match s with
  | EmptyString => (EmptyString, false)
  | String c s' =>
      let '(body, quoted) := scan s' in
      if Ascii.eqb c Str.dquote
      then (String c (String c body), true)
      else (String c body, special c || quoted)
  end.

(** Whether the text is written between quotes. *)
Definition quoted (s : string) : bool := (scan s).2.

Definition field (v : scalar) : string :=
  let '(body, quoted) := scan (field_text v) in
  if quoted then String Str.dquote (body +:+ Str.str1 Str.dquote) else body.

Definition lineterminator : string := String Str.CR (Str.str1 Str.LF).

(** A record that would come out empty although it has a field (one empty
    field) is written as a pair of quote characters. *)
Definition writerow (row : list scalar) : string :=
  let rec := Str.join "," (field <$> row) in
  (if Str.is_empty rec && negb (Nat.eqb (length row) 0)
   then String Str.dquote (Str.str1 Str.dquote) else rec)
  +:+ lineterminator.

End Csv.

(** *** [json.dumps(obj)], default options

    [ensure_ascii=True], item separator [", "], key separator [": "]. *)

Module Json.

Definition hex_digit (n : N) : ascii :=
  match n with
  | 0 => "0" | 1 => "1" | 2 => "2" | 3 => "3" | 4 => "4" | 5 => "5"
  | 6 => "6" | 7 => "7" | 8 => "8" | 9 => "9" | 10 => "a" | 11 => "b"
  | 12 => "c" | 13 => "d" | 14 => "e" | _ => "f"
  end%N%char.

(** A character is copied when it is printable ASCII other than the quote
    and the backslash; the rest is escaped. *)
Definition plain (c : ascii) : bool :=
  let n := N_of_ascii c in
  (32 <=? n)%N && (n <=? 126)%N
  && negb (Ascii.eqb c Str.dquote) && negb (Ascii.eqb c Str.backslash).

Definition escape_char (c : ascii) : string :=
  if plain c then Str.str1 c
  else if Ascii.eqb c Str.dquote then String Str.backslash (Str.str1 Str.dquote)
  else if Ascii.eqb c Str.backslash then "\\"
  else if Ascii.eqb c Str.LF then "\n"
  else if Ascii.eqb c Str.CR then "\r"
  else if Ascii.eqb c Str.HT then "\t"
  else if Ascii.eqb c Str.BS then "\b"
  else if Ascii.eqb c Str.FF then "\f"
  else let n := N_of_ascii c in
       "\u00" +:+ String (hex_digit (n / 16)) (Str.str1 (hex_digit (n mod 16))).

Fixpoint escape (s : string) : string :=
  match s with
  | EmptyString => EmptyString
  | String c s' => escape_char c +:+ escape s'
  end.

Definition encode_str (s : string) : string :=
  String Str.dquote (escape s +:+ Str.str1 Str.dquote).

Definition encode_scalar (v : scalar) : string :=
  match v with
  | PyNone => "null"
  | PyBool true => "true"
  | PyBool false => "false"
  | PyInt n => pretty n
  | PyFloat r => r
  | PyStr s => encode_str s
  end.

Definition encode_dict {V} (enc : V → string) (items : list (string * V)) : string :=
  "{" +:+ Str.join ", " ((λ kv, encode_str kv.1 +:+ ": " +:+ enc kv.2) <$> items)
      +:+ "}".

Definition encode (o : pyobj) : string :=
  match o with
  | Scalar v => encode_scalar v
  | Dict items => encode_dict encode_scalar items
  end.

(** The payload of [execute] is a dict whose values are Python objects. *)
Definition dumps (payload : list (string * pyobj)) : string :=
  encode_dict encode payload.

(** [json.loads(text)], on the values of this embedding: an object whose
    members are scalars or objects of scalars.  It is what the caller of
    [execute] reads the returned payload with. *)

Definition is_digit (c : ascii) : bool :=
  let n := N_of_ascii c in (48 <=? n)%N && (n <=? 57)%N.

Definition digit_value (c : ascii) : N := (N_of_ascii c - 48)%N.

Fixpoint int_of_digits (acc : N) (s : string) : N :=
  match s with
  | EmptyString => acc
  | String c s' => int_of_digits (acc * 10 + digit_value c)%N s'
  end.

Fixpoint all_digits (s : string) : bool :=
  match s with
  | EmptyString => true
  | String c s' => is_digit c && all_digits s'
  end.

(** The characters of a number literal. *)
Definition number_char (c : ascii) : bool :=
  is_digit c || Ascii.eqb c "-" || Ascii.eqb c "+" || Ascii.eqb c "."
  || Ascii.eqb c "e" || Ascii.eqb c "E".

Fixpoint all_number_chars (s : string) : bool :=
  match s with
  | EmptyString => true
  | String c s' => number_char c && all_number_chars s'
  end.

(** The longest prefix of number characters, and what follows it. *)
Fixpoint span_number (s : string) : string * string :=
  match s with
  | EmptyString => (EmptyString, EmptyString)
  | String c s' =>
      if number_char c
      then let '(t, rest) := span_number s' in (String c t, rest)
      else (EmptyString, s)
  end.

(** A literal with a fraction or an exponent is a float, any other an int. *)
Definition has_fraction_or_exponent (t : string) : bool :=
  Str.contains "." t || Str.contains "e" t || Str.contains "E" t.

(** The [repr] of a finite float, as a literal: number characters only,
    with a fraction or an exponent. *)
Definition float_literal (t : string) : bool :=
  negb (Str.is_empty t) && all_number_chars t && has_fraction_or_exponent t.

Definition parse_number (s : string) : option (scalar * string) :=
  let '(t, rest) := span_number s in
  if has_fraction_or_exponent t then Some (PyFloat t, rest)
  else match t with
       | EmptyString => None
       | String c d =>
           if Ascii.eqb c "-"
           then if all_digits d && negb (Str.is_empty d)
                then Some (PyInt (- Z.of_N (int_of_digits 0 d)), rest) else None
           else if all_digits t
                then Some (PyInt (Z.of_N (int_of_digits 0 t)), rest) else None
       end.

Definition hex_value (c : ascii) : option N :=
  let n := N_of_ascii c in
  if is_digit c then Some (n - 48)%N
  else if (97 <=? n)%N && (n <=? 102)%N then Some (n - 87)%N
  else if (65 <=? n)%N && (n <=? 70)%N then Some (n - 55)%N
  else None.

(** The character of a [\uXXXX] escape, when its code point is one of the
    embedded strings'. *)
Definition unicode_escape (h1 h2 h3 h4 : ascii) : option ascii :=
  a ← hex_value h1; b ← hex_value h2; c ← hex_value h3; d ← hex_value h4;
  let n := (((a * 16 + b) * 16 + c) * 16 + d)%N in
  if (n <? 256)%N then Some (ascii_of_N n) else None.

Definition simple_escape (e : ascii) : option ascii :=
  if Ascii.eqb e Str.dquote then Some Str.dquote
  else if Ascii.eqb e Str.backslash then Some Str.backslash
  else if Ascii.eqb e "/" then Some "/"%char
  else if Ascii.eqb e "b" then Some Str.BS
  else if Ascii.eqb e "f" then Some Str.FF
  else if Ascii.eqb e "n" then Some Str.LF
  else if Ascii.eqb e "r" then Some Str.CR
  else if Ascii.eqb e "t" then Some Str.HT
  else None.

(** The text of a string literal past its opening quote: the decoded
    string, and what follows the closing quote. *)
Fixpoint decode_str (s : string) : option (string * string) :=
  match s with
  | EmptyString => None
  | String c s' =>
      if Ascii.eqb c Str.dquote then Some (EmptyString, s')
      else if Ascii.eqb c Str.backslash then
        match s' with
        | String e s'' =>
            if Ascii.eqb e "u" then
              match s'' with
              | String h1 (String h2 (String h3 (String h4 s4))) =>
                  a ← unicode_escape h1 h2 h3 h4;
                  '(t, rest) ← decode_str s4;
                  Some (String a t, rest)
              | _ => None
              end
            else
              a ← simple_escape e;
              '(t, rest) ← decode_str s'';
              Some (String a t, rest)
        | EmptyString => None
        end
      else
        '(t, rest) ← decode_str s';
        Some (String c t, rest)
  end.

Fixpoint strip_prefix (p s : string) : option string :=
  match p, s with
  | EmptyString, _ => Some s
  | String a p', String b s' => if Ascii.eqb a b then strip_prefix p' s' else None
  | String _ _, EmptyString => None
  end.

Definition parse_scalar (s : string) : option (scalar * string) :=
  match s with
  | EmptyString => None
  | String c s' =>
      if Ascii.eqb c Str.dquote
      then '(t, rest) ← decode_str s'; Some (PyStr t, rest)
      else match strip_prefix "null" s with
           | Some rest => Some (PyNone, rest)
           | None =>
               match strip_prefix "true" s with
               | Some rest => Some (PyBool true, rest)
               | None =>
                   match strip_prefix "false" s with
                   | Some rest => Some (PyBool false, rest)
                   | None => parse_number s
                   end
               end
           end
  end.

Definition whitespace (c : ascii) : bool :=
  Ascii.eqb c " " || Ascii.eqb c Str.HT || Ascii.eqb c Str.LF || Ascii.eqb c Str.CR.

Fixpoint skip_ws (s : string) : string :=
  match s with
  | String c s' => if whitespace c then skip_ws s' else s
  | EmptyString => EmptyString
  end.

(** The members of an object, read from behind the brace or a comma up to
    the closing brace. *)
Fixpoint parse_members {V} (value : string → option (V * string)) (fuel : nat)
    (s : string) : option (list (string * V) * string) :=
  match fuel with
  | O => None
  | S fuel' =>
      match skip_ws s with
      | String c s1 =>
          if Ascii.eqb c Str.dquote then
            '(k, s2) ← decode_str s1;
            match skip_ws s2 with
            | String c2 s3 =>
                if Ascii.eqb c2 ":" then
                  '(v, s4) ← value (skip_ws s3);
                  match skip_ws s4 with
                  | String c4 s5 =>
                      if Ascii.eqb c4 "," then
                        '(members, s6) ← parse_members value fuel' s5;
                        Some ((k, v) :: members, s6)
                      else if Ascii.eqb c4 "}" then Some ([(k, v)], s5)
                      else None
                  | EmptyString => None
                  end
                else None
            | EmptyString => None
            end
          else None
      | EmptyString => None
      end
  end.

Definition parse_object {V} (value : string → option (V * string)) (fuel : nat)
    (s : string) : option (list (string * V) * string) :=
  match skip_ws s with
  | String c s1 =>
      if Ascii.eqb c "{" then
        match skip_ws s1 with
        | String c1 s2 =>
            if Ascii.eqb c1 "}" then Some ([], s2)
            else parse_members value fuel s1
        | EmptyString => None
        end
      else None
  | EmptyString => None
  end.

Definition parse_value (fuel : nat) (s : string) : option (pyobj * string) :=
  match s with
  | String c _ =>
      if Ascii.eqb c "{"
      then '(items, rest) ← parse_object parse_scalar fuel s; Some (Dict items, rest)
      else '(v, rest) ← parse_scalar s; Some (Scalar v, rest)
  | EmptyString => None
  end.

(** Printable ASCII, from the space to the tilde. *)
Definition printable (c : ascii) : bool :=
  let n := N_of_ascii c in (32 <=? n)%N && (n <=? 126)%N.

Fixpoint all_printable (s : string) : bool :=
  match s with
  | EmptyString => true
  | String c s' => printable c && all_printable s'
  end.

(** What follows a member's value in an object: a comma or the brace. *)
Definition delimited (s : string) : bool :=
  match s with
  | String c _ => Ascii.eqb c "," || Ascii.eqb c "}"
  | EmptyString => false
  end.

Definition loads (s : string) : option (list (string * pyobj)) :=
  '(payload, rest) ← parse_object (parse_value (String.length s)) (String.length s) s;
  if Str.is_empty (skip_ws rest) then Some payload else None.

End Json.

(** The floats of a reading are literals. *)
Definition float_ok (v : scalar) : Prop :=
  match v with
  | PyFloat r => Json.float_literal r = true
  | _ => True
  end.

Definition floats_ok (o : pyobj) : Prop :=
  match o with
  | Scalar v => float_ok v
  | Dict items => Forall (λ kv, float_ok kv.2) items
  end.

(** The number of members of an object. *)
Definition width (o : pyobj) : nat :=
  match o with
  | Scalar _ => 0
  | Dict items => length items
  end.

(** *** [os.path.splitext] and [os.path.dirname], POSIX flavour *)

Module OsPath.

Definition sep : ascii := "/"%char.
Definition extsep : ascii := "."%char.

(** The loop of [genericpath._splitext]: is there a character other than
    the dot in [p[i : i + n]]? *)
Fixpoint skip_leading_dots (p : string) (n : nat) : bool :=
  match n, p with
  | S n', String c p' =>
      if negb (Ascii.eqb c extsep) then true else skip_leading_dots p' n'
  | _, _ => false
  end.

Definition splitext (p : string) : string * string :=
  let sepIndex := Str.rfind sep p in
  let dotIndex := Str.rfind extsep p in
  if (sepIndex <? dotIndex)%Z
     && skip_leading_dots (Str.drop (Z.to_nat (sepIndex + 1)) p)
                          (Z.to_nat (dotIndex - (sepIndex + 1)))
  then (Str.take (Z.to_nat dotIndex) p, Str.drop (Z.to_nat dotIndex) p)
  else (p, EmptyString).

Definition dirname (p : string) : string :=
  let i := (Str.rfind sep p + 1)%Z in
  let head := Str.take (Z.to_nat i) p in
  if negb (Str.is_empty head) && negb (Str.all_char sep head)
  then Str.rstrip sep head else head.

End OsPath.

(** ** Exceptions *)

Inductive exn :=
  | ValueError (msg : string)
  | RuntimeError (msg : string)
  | AttributeError (attr : string)
  | KeyError
  | IndexError
  | FileNotFoundError (path : string)
  | FileExistsError (path : string)
  | IsADirectoryError (path : string)
  | OSError (msg : string)
  | ConnectionResetError
  | HTTPNotFound
  | HTTPInternalServerError.

Inductive result (A : Type) :=
  | Ok (a : A)
  | Raise (e : exn).
Arguments Ok {A} a.
Arguments Raise {A} e.

(** ** The process state and its environment *)

(** An instance of the class.  The reader function is opaque to the module:
    it is embedded as the sequence of the values its successive calls return,
    [calls] counting the calls made so far.  [csv_file_path] is an attribute
    that [__init__] sets late: [None] stands for an instance that does not
    have it. *)
Record Wiresense := mkWiresense {
  name : string;
  exec_function : nat → pyobj;
  calls : nat;
  base_file_path : string;
  csv_file_path : option string
}.

(** A WebSocket connection as the module sees it: the text frames sent to
    the client so far, and whether the transport is closing, in which case a
    send raises. *)
Record WebSocket := mkWebSocket {
  sent : list string;
  closing : bool
}.

Inductive level := INFO | WARNING | ERROR.

Record World := mkWorld {
  sensors : list Wiresense;            (* Wiresense.sensors; an instance is
                                          referred to by its index here *)
  configured : bool;                   (* Wiresense.configured *)
  active_connections : list nat;       (* the set, in its iteration order *)
  files : gmap string string;          (* regular files and their text *)
  dirs : gset string;                  (* directories *)
  clock : Z;                           (* int(time.time()) *)
  sockets : gmap nat WebSocket;        (* the prepared connections *)
  listening : list (string * Z);       (* endpoints bound by this process *)
  busy : list (string * Z);            (* endpoints bound by others *)
  records : list (level * string)      (* what went to the logger *)
}.

Definition set_sensors (f : list Wiresense → list Wiresense) (w : World) : World :=
  mkWorld (f (sensors w)) (configured w) (active_connections w) (files w)
          (dirs w) (clock w) (sockets w) (listening w) (busy w) (records w).
Definition set_configured (b : bool) (w : World) : World :=
  mkWorld (sensors w) b (active_connections w) (files w)
          (dirs w) (clock w) (sockets w) (listening w) (busy w) (records w).
Definition set_active_connections (f : list nat → list nat) (w : World) : World :=
  mkWorld (sensors w) (configured w) (f (active_connections w)) (files w)
          (dirs w) (clock w) (sockets w) (listening w) (busy w) (records w).
Definition set_files (f : gmap string string → gmap string string) (w : World) : World :=
  mkWorld (sensors w) (configured w) (active_connections w) (f (files w))
          (dirs w) (clock w) (sockets w) (listening w) (busy w) (records w).
Definition set_dirs (f : gset string → gset string) (w : World) : World :=
  mkWorld (sensors w) (configured w) (active_connections w) (files w)
          (f (dirs w)) (clock w) (sockets w) (listening w) (busy w) (records w).
Definition set_sockets (f : gmap nat WebSocket → gmap nat WebSocket) (w : World) : World :=
  mkWorld (sensors w) (configured w) (active_connections w) (files w)
          (dirs w) (clock w) (f (sockets w)) (listening w) (busy w) (records w).
Definition set_listening (f : list (string * Z) → list (string * Z)) (w : World) : World :=
  mkWorld (sensors w) (configured w) (active_connections w) (files w)
          (dirs w) (clock w) (sockets w) (f (listening w)) (busy w) (records w).
Definition set_records (f : list (level * string) → list (level * string)) (w : World) : World :=
  mkWorld (sensors w) (configured w) (active_connections w) (files w)
          (dirs w) (clock w) (sockets w) (listening w) (busy w) (f (records w)).

(** ** The monad *)

Definition M (A : Type) : Type := World → result A * World.

Definition ret {A} (a : A) : M A := λ w, (Ok a, w).
Definition raise {A} (e : exn) : M A := λ w, (Raise e, w).
Definition bind {A B} (m : M A) (k : A → M B) : M B :=
  λ w, match m w with
       | (Ok a, w') => k a w'
       | (Raise e, w') => (Raise e, w')
       end.
Definition get {A} (f : World → A) : M A := λ w, (Ok (f w), w).
Definition modify (f : World → World) : M unit := λ w, (Ok tt, f w).

(** [try: m except e: handler] for the one exception the source catches. *)
Definition try_except {A} (m : M A) (catches : exn → bool) (handler : M A) : M A :=
  λ w, match m w with
       | (Raise e, w') => if catches e then handler w' else (Raise e, w')
       | r => r
       end.

Declare Scope py_scope.
Delimit Scope py_scope with py.
Notation "x <- m ;; k" := (bind m (λ x, k))
  (at level 100, m at next level, right associativity) : py_scope.
Notation "m ;; k" := (bind m (λ _, k))
  (at level 100, right associativity) : py_scope.
Local Open Scope py_scope.

(** [for x in l: body x], stopping at the first exception. *)
Fixpoint for_each {A} (l : list A) (body : A → M unit) : M unit :=
  match l with
  | [] => ret tt
  | x :: l' => body x ;; for_each l' body
  end.

(** ** The environment's operations *)

Definition log_info (msg : string) : M unit :=
  modify (set_records (λ r, r ++ [(INFO, msg)])).
Definition log_error (msg : string) : M unit :=
  modify (set_records (λ r, r ++ [(ERROR, msg)])).

(** [int(time.time())]. *)
Definition time_time : M Z := get clock.

Definition isdir (w : World) (d : string) : bool :=
  String.eqb d "/" || bool_decide (d ∈ dirs w).

(** [os.path.isfile]: the empty path names no file. *)
Definition isfile (w : World) (p : string) : bool :=
  negb (Str.is_empty p) && bool_decide (is_Some (files w !! p)).

(** The directory and all its parents, as [os.makedirs] walks them. *)
Fixpoint with_parents (fuel : nat) (d : string) : list string :=
  match fuel with
  | O => []
  | S fuel' =>
      if Str.is_empty d then [] else d :: with_parents fuel' (OsPath.dirname d)
  end.

(** [os.makedirs(d, exist_ok=True)]. *)
Definition makedirs (d : string) : M unit := λ w,
  if Str.is_empty d then (Raise (FileNotFoundError d), w)
  else if isfile w d then (Raise (FileExistsError d), w)
  else (Ok tt, set_dirs (λ ds, ds ∪ list_to_set (with_parents (String.length d) d)) w).

(** What [open(p, mode)] checks for the modes [w] and [a]. *)
Definition open_for_writing (p : string) : M unit := λ w,
  if Str.is_empty p then (Raise (FileNotFoundError p), w)
  else if isdir w p then (Raise (IsADirectoryError p), w)
  else if Str.is_empty (OsPath.dirname p) || isdir w (OsPath.dirname p)
       then (Ok tt, w)
       else (Raise (FileNotFoundError p), w).

(** [with open(p, mode="w") as f: f.write(text)]. *)
Definition write_file (p text : string) : M unit :=
  open_for_writing p ;;
  modify (set_files (λ fs, <[p := text]> fs)).

(** [with open(p, mode="a") as f: f.write(text)]. *)
Definition append_file (p text : string) : M unit :=
  open_for_writing p ;;
  modify (set_files (λ fs, <[p := default EmptyString (fs !! p) +:+ text]> fs)).

(** [await ws.send_str(msg)]: a connection that was never prepared and a
    closing transport both raise. *)
Definition send_str (ws : nat) (msg : string) : M unit := λ w,
  match sockets w !! ws with
  | None => (Raise (RuntimeError "Call .prepare() first"), w)
  | Some c =>
      if closing c then (Raise ConnectionResetError, w)
      else (Ok tt, set_sockets (λ ss, <[ws := mkWebSocket (sent c ++ [msg]) false]> ss) w)
  end.

(** [await site.start()] for [web.TCPSite(runner, host, port)]: binding an
    endpoint that is already bound fails. *)
Definition site_start (host : string) (port : Z) : M unit := λ w,
  if bool_decide ((host, port) ∈ busy w ++ listening w)
  then (Raise (OSError "address already in use"), w)
  else (Ok tt, set_listening (λ l, l ++ [(host, port)]) w).

(** ** Attribute access on an instance *)

(** An index that is not in the registry designates no instance; the source
    cannot form such a reference, the embedding answers it with the
    [AttributeError] of a missing attribute. *)
Definition getattr {A} (attr : string) (proj : Wiresense → option A) (self : nat) : M A :=
  λ w, match sensors w !! self ≫= proj with
       | Some a => (Ok a, w)
       | None => (Raise (AttributeError attr), w)
       end.

Definition with_csv_file_path (p : string) (s : Wiresense) : Wiresense :=
  mkWiresense (name s) (exec_function s) (calls s) (base_file_path s) (Some p).

Definition with_call (s : Wiresense) : Wiresense :=
  mkWiresense (name s) (exec_function s) (S (calls s)) (base_file_path s)
              (csv_file_path s).

Definition setattr_csv_file_path (self : nat) (p : string) : M unit :=
  modify (set_sensors (λ l, alter (with_csv_file_path p) self l)).

(** [self.exec_function()]: the next value of the reader, one call more
    counted. *)
Definition call_exec_function (self : nat) : M pyobj :=
  s <- getattr "exec_function" Some self ;;
  modify (set_sensors (λ l, alter with_call self l)) ;;
  ret (exec_function s (calls s)).

(** ** The module *)

Definition excluded_chars : list ascii := [Str.LF; Str.CR].

(** [", ".join([repr(ec.encode("UTF-8")) for ec in excluded_chars])]. *)
Definition excluded_chars_bytes : string := "b'\n', b'\r'".

(** The four failures the module raises itself.  The source uses the
    built-in [ValueError] and [RuntimeError] and tells them apart by their
    message; the constants carry the name of the failure. *)
Definition DuplicateNameError (name' : string) : exn :=
  ValueError ("Sensor with name '" +:+ name' +:+ "' already exists.").
Definition InvalidNameError : exn :=
  ValueError ("Sensor name cannot include the following chars: "
              +:+ excluded_chars_bytes).
Definition InvalidReadingError : exn :=
  ValueError "exec_function must return a non-empty dictionary.".
Definition NotConfiguredError : exn :=
  RuntimeError
    "Wiresense is not configured. Call configure() before creating instances.".

(** [async def _broadcast(message)]. *)
Definition _broadcast (message : string) : M unit :=
  conns <- get active_connections ;;
  for_each conns (λ ws, send_str ws message) ;;
  log_info "Broadcast message send!".

(** [Wiresense.__init__]; the result is the new instance. *)
Definition __init__ (name' : string) (exec_function' : nat → pyobj)
    (base_file_path' : string) : M nat :=
  registry <- get sensors ;;
  if existsb (λ sensor, String.eqb (name sensor) name') registry
  then raise (DuplicateNameError name')
  else if existsb (λ ec, Str.contains ec name') excluded_chars
  then raise InvalidNameError
  else
    let self := length registry in
    modify (set_sensors
              (λ l, l ++ [mkWiresense name' exec_function' 0 base_file_path' None])) ;;
    data <- call_exec_function self ;;
    if invalid_reading data then raise InvalidReadingError
    else
      let '(base_name, ext) := OsPath.splitext base_file_path' in
      let dir_name := OsPath.dirname base_file_path' in
      makedirs dir_name ;;
      timestamp <- time_time ;;
      let path := base_name +:+ "_" +:+ pretty timestamp +:+ ext in
      setattr_csv_file_path self path ;;
      match data with
      | Dict items =>
          write_file path (Csv.writerow (PyStr "timestamp" :: (PyStr <$> keys items))) ;;
          ret self
      | Scalar _ => raise (AttributeError "keys")
      end.

(** [async def _run_async_server], with its keyword arguments [host] and
    [port]; a [port] of [None] is the server's default 8080. *)
Definition _run_async_server (host : string) (port : option Z) : M unit :=
  site_start host (default 8080%Z port) ;;
  modify (set_configured true) ;;
  log_info ("Server Running on: http://" +:+ host +:+ ":"
            +:+ from_option pretty "None" port).

(** [Wiresense.config(options)]. *)
Definition config (options : gmap string Z) : M unit :=
  c <- get configured ;;
  if negb c
  then log_info "Starting Server..." ;;
       _run_async_server "0.0.0.0" (options !! "port")
  else log_info "Server already configured".

(** [Wiresense.execute(self)]. *)
Definition execute (self : nat) : M string :=
  c <- get configured ;;
  if negb c then raise NotConfiguredError
  else
    data <- call_exec_function self ;;
    if invalid_reading data then raise InvalidReadingError
    else
      name' <- getattr "name" (λ s, Some (name s)) self ;;
      let payload := [("key", Scalar (PyStr name')); ("data", data)] in
      timestamp <- time_time ;;
      path <- getattr "csv_file_path" csv_file_path self ;;
      match data with
      | Dict items =>
          append_file path (Csv.writerow (PyInt timestamp :: values items)) ;;
          let payload_str := Json.dumps payload in
          _broadcast payload_str ;;
          ret payload_str
      | Scalar _ => raise (AttributeError "values")
      end.

(** What the request handler returns. *)
Inductive response :=
  | FileResponse (path : string) (headers : list (string * string)).

(** [[sensor.csv_file_path for sensor in Wiresense.sensors
      if sensor.name == s_name]]. *)
Fixpoint matching_paths (l : list Wiresense) (s_name : string) : result (list string) :=
  match l with
  | [] => Ok []
  | sensor :: l' =>
      if String.eqb (name sensor) s_name
      then match csv_file_path sensor with
           | None => Raise (AttributeError "csv_file_path")
           | Some p =>
               match matching_paths l' s_name with
               | Ok ps => Ok (p :: ps)
               | Raise e => Raise e
               end
           end
      else matching_paths l' s_name
  end.

Definition is_IndexError (e : exn) : bool :=
  match e with IndexError => true | _ => false end.

(** [async def _handle_http_request(request)], on the [path] of the
    request's match info; [None] is the function running off its end. *)
Definition _handle_http_request (path : string) : M (option response) :=
  let url_path := Str.replace Str.LF "\n" (Str.replace Str.CR "\r" path) in
  let url_parts := Str.split "/" url_path in
  if Nat.eqb (length url_parts) 2
     && String.eqb (nth 1 url_parts EmptyString) "data.csv"
  then
    let s_name := nth 0 url_parts EmptyString in
    file_path <-
      try_except
        (registry <- get sensors ;;
         λ w, match matching_paths registry s_name with
              | Ok (p :: _) => (Ok p, w)
              | Ok [] => (Raise IndexError, w)
              | Raise e => (Raise e, w)
              end)
        is_IndexError
        (log_info "Sensor not found!" ;; raise HTTPNotFound) ;;
    if negb (Str.is_empty file_path)
    then
      exists_ <- get (λ w, isfile w file_path) ;;
      if exists_
      then log_info ("File of Sensor: '" +:+ s_name +:+ "' send! ('"
                     +:+ file_path +:+ "')") ;;
           ret (Some (FileResponse file_path [("Content-Type", "text/csv")]))
      else log_error ("File of Sensor: '" +:+ s_name +:+ "' does not exist! ('"
                      +:+ file_path +:+ "')") ;;
           raise HTTPInternalServerError
    else ret None
  else
    log_info ("Invalid Path: '" +:+ url_path +:+ "'") ;;
    raise HTTPNotFound.

(** [async def _on_connect(ws)]: [active_connections.add(ws)]. *)
Definition _on_connect (ws : nat) : M unit :=
  modify (set_active_connections
            (λ l, if bool_decide (ws ∈ l) then l else l ++ [ws])) ;;
  log_info "WebSocket Client connection established".

(** [async def _on_disconnect(ws)]: [active_connections.remove(ws)]. *)
Definition _on_disconnect (ws : nat) : M unit :=
  conns <- get active_connections ;;
  (if bool_decide (ws ∈ conns)
   then modify (set_active_connections (filter (λ x, x ≠ ws)))
   else raise KeyError) ;;
  log_info "WebSocket Client connection closed".

(** [async def _on_message(ws, message)]. *)
Definition _on_message (ws : nat) (message : string) : M unit :=
  log_info ("Received message: " +:+ message) ;;
  send_str ws ("Message received!" +:+ Str.str1 Str.LF +:+ message).

(** ** Predicates used in the statements *)

(** No registered instance carries the name. *)
Definition name_free (w : World) (name' : string) : Prop :=
  ∀ s, s ∈ sensors w → name s ≠ name'.

(** The name has neither a line feed nor a carriage return. *)
Definition name_allowed (name' : string) : Prop :=
  Str.contains Str.LF name' = false ∧ Str.contains Str.CR name' = false.

(** A reading the validation rejects: the empty mapping, or no mapping. *)
Definition empty_or_not_mapping (data : pyobj) : Prop :=
  data = Dict [] ∨ ∃ v, data = Scalar v.

(** The connection is prepared and its transport is not closing: sending to
    it succeeds. *)
Definition healthy (w : World) (ws : nat) : Prop :=
  ∃ c, sockets w !! ws = Some c ∧ closing c = false.

(** The connection has been sent [msg] as one more frame since [w]. *)
Definition received (w w' : World) (ws : nat) (msg : string) : Prop :=
  ∃ c, sockets w !! ws = Some c
       ∧ sockets w' !! ws = Some (mkWebSocket (sent c ++ [msg]) false).

(** Two worlds that differ in their sockets only. *)
Definition same_but_sockets (w w' : World) : Prop :=
  w' = set_sockets (λ _, sockets w') w.

(** The file can be opened for writing or appending. *)
Definition writable (w : World) (p : string) : Prop :=
  open_for_writing p w = (Ok tt, w).

(** The registry as [__init__] keeps it: names are unique and without line
    breaks, and a log path, once set, is not empty. *)
Definition registry_ok (w : World) : Prop :=
  NoDup (name <$> sensors w)
  ∧ Forall (λ s, name_allowed (name s)
                 ∧ csv_file_path s ≠ Some EmptyString) (sensors w).

(** ** The HTTP server around the handler

    What the web server makes of the handler's outcome: a returned file
    response is sent with status 200 and the file's content, a raised HTTP
    exception is its own response, any other exception is answered with
    500.  A handler that returns [None] has no defined answer. *)
Definition status (r : result (option response)) : option Z :=
  match r with
  | Ok (Some (FileResponse _ _)) => Some 200%Z
  | Ok None => None
  | Raise HTTPNotFound => Some 404%Z
  | Raise HTTPInternalServerError => Some 500%Z
  | Raise _ => Some 500%Z
  end.

Definition body (w : World) (r : result (option response)) : option string :=
  match r with
  | Ok (Some (FileResponse p _)) => files w !! p
  | _ => None
  end.

Fixpoint header (h : string) (headers : list (string * string)) : option string :=
  match headers with
  | [] => None
  | (k, v) :: headers' => if String.eqb k h then Some v else header h headers'
  end.

Definition content_type (r : result (option response)) : option string :=
  match r with
  | Ok (Some (FileResponse _ headers)) => header "Content-Type" headers
  | _ => None
  end.

(** The sensor name of a path of the form [<sensor-name>/data.csv], read
    after the escaping of line breaks, as the handler does. *)
Definition escaped (path : string) : string :=
  Str.replace Str.LF "\n" (Str.replace Str.CR "\r" path).

Definition sensor_of_path (path : string) : option string :=
  match Str.split "/" (escaped path) with
  | [s_name; file] => if String.eqb file "data.csv" then Some s_name else None
  | _ => None
  end.

(** ** The row the specification describes

    The values of the reading picked by column name, in the order of the
    columns recorded when the sensor was created. *)
Fixpoint lookup_key (k : string) (items : list (string * scalar)) : option scalar :=
  match items with
  | [] => None
  | (k', v) :: items' => if String.eqb k' k then Some v else lookup_key k items'
  end.

Definition row_by_columns (columns : list string) (items : list (string * scalar))
    : list scalar :=
  (λ k, default PyNone (lookup_key k items)) <$> columns.

(** ** The states the module can be in

    One step is one call into the module or one move of the environment.
    The environment can change the storage, the clock, the sockets and the
    endpoints held by others; it does not touch the state of the process. *)
Inductive step (w : World) : World → Prop :=
  | step_init n f p : step w (__init__ n f p w).2
  | step_config options : step w (config options w).2
  | step_execute self : step w (execute self w).2
  | step_request path : step w (_handle_http_request path w).2
  | step_connect ws : step w (_on_connect ws w).2
  | step_disconnect ws : step w (_on_disconnect ws w).2
  | step_message ws message : step w (_on_message ws message w).2
  | step_environment fs ds t ss b :
      step w (mkWorld (sensors w) (configured w) (active_connections w)
                      fs ds t ss (listening w) b (records w)).

(** The process at its start: the class attributes and the set of
    connections as the module initialises them, nothing bound. *)
Definition started (w : World) : Prop :=
  sensors w = [] ∧ configured w = false ∧ active_connections w = []
  ∧ listening w = [].

Inductive reachable : World → Prop :=
  | reachable_started w : started w → reachable w
  | reachable_step w w' : reachable w → step w w' → reachable w'.

(** What holds in every reachable state. *)
Definition invariant (w : World) : Prop :=
  registry_ok w
  ∧ NoDup (active_connections w)
  ∧ (configured w = true → listening w ≠ []).

(** ** Worlds used as examples *)

Module Examples.

(** A reader that returns the same one-column reading at every call. *)
Definition thermometer (n : nat) : pyobj := Dict [("c", PyFloat "21.5")].

(** A reader with the readings 21.5, 22.0 and 22.1, the first of them
    twice: once for the registration, once for the first tick. *)
Definition warming (n : nat) : pyobj :=
  match n with
  | 0 | 1 => Dict [("c", PyFloat "21.5")]
  | 2 => Dict [("c", PyFloat "22.0")]
  | _ => Dict [("c", PyFloat "22.1")]
  end.

(** A reader whose first reading is empty. *)
Definition silent (n : nat) : pyobj := Dict [].

(** Nothing registered, nothing bound, an empty storage. *)
Definition fresh : World :=
  mkWorld [] false [] ∅ ∅ 1700000000%Z ∅ [] [] [].

(** [fresh] after [Wiresense("temp", thermometer, "data/temp.csv")]. *)
Definition registered : World :=
  (__init__ "temp" thermometer "data/temp.csv" fresh).2.

(** [registered] after [Wiresense.config({})]. *)
Definition serving : World := (config ∅ registered).2.

Definition open_socket : WebSocket := mkWebSocket [] false.
Definition broken_socket : WebSocket := mkWebSocket [] true.

(** Two clients, both reachable. *)
Definition two_clients : World :=
  set_sockets (λ _, {[0 := open_socket; 1 := open_socket]})
    (_on_connect 1 (_on_connect 0 serving).2).2.

(** One client, whose transport is closing. *)
Definition one_broken_client : World :=
  set_sockets (λ _, {[0 := broken_socket]}) (_on_connect 0 serving).2.

(** Two clients; the one the set yields first has a closing transport. *)
Definition broken_then_open : World :=
  set_sockets (λ _, {[0 := open_socket; 1 := broken_socket]})
    (_on_connect 0 (_on_connect 1 serving).2).2.

(** A reader whose readings carry the same two keys, from the second call
    on in the other order. *)
Definition swapping (n : nat) : pyobj :=
  match n with
  | O => Dict [("a", PyInt 1); ("b", PyInt 2)]
  | S _ => Dict [("b", PyInt 2); ("a", PyInt 1)]
  end.

(** [fresh] after [Wiresense("ab", swapping, "data/ab.csv")] and
    [Wiresense.config({})]. *)
Definition swapped : World :=
  (config ∅ (__init__ "ab" swapping "data/ab.csv" fresh).2).2.

(** A sensor whose name has a backslash followed by [n], two characters
    that no check of [__init__] objects to. *)
Definition backslash_name : World :=
  (__init__ "a\nb" thermometer "data/ab.csv" fresh).2.

(** The request path [a], a raw line feed, [b/data.csv]. *)
Definition line_feed_path : string := "a" +:+ String Str.LF "b/data.csv".

(** [registered] after its log file has been removed from the storage. *)
Definition log_removed : World := set_files (λ _, ∅) registered.

(** [registered], with the default endpoint held by another process. *)
Definition port_taken : World :=
  mkWorld (sensors registered) false [] (files registered) (dirs registered)
          1700000000%Z ∅ [] [("0.0.0.0", 8080%Z)] [].

(** A reader whose readings are empty from the second call on. *)
Definition fading (n : nat) : pyobj :=
  match n with
  | O => Dict [("c", PyFloat "21.5")]
  | S _ => Dict []
  end.

(** [fresh] after [Wiresense("temp", fading, "data/temp.csv")] and
    [Wiresense.config({})]. *)
Definition faded : World :=
  (config ∅ (__init__ "temp" fading "data/temp.csv" fresh).2).2.

(** A reader whose first reading is empty and whose later ones are not. *)
Definition late (n : nat) : pyobj :=
  match n with
  | O => Dict []
  | S _ => Dict [("c", PyFloat "21.5")]
  end.

(** [fresh] after [Wiresense("temp", late, "data/temp.csv")], which raises,
    and [Wiresense.config({})]. *)
Definition half_registered : World :=
  (config ∅ (__init__ "temp" late "data/temp.csv" fresh).2).2.

(** [fresh] after [Wiresense("temp", warming, "data/temp.csv")],
    [Wiresense.config({})] and three calls of [execute]. *)
Definition three_ticks : World :=
  let w1 := (__init__ "temp" warming "data/temp.csv" fresh).2 in
  let w2 := (config ∅ w1).2 in
  (execute 0 (execute 0 (execute 0 w2).2).2).2.

End Examples.

(** * Properties *)

(** ** Running the monad *)

Lemma existsb_name_true (l : list Wiresense) (n : string) :
  existsb (λ sensor, String.eqb (name sensor) n) l = true
  ↔ ∃ s, s ∈ l ∧ name s = n.
Proof.
  rewrite existsb_exists. split.
  - intros (s & Hin & Heq). exists s. split; [by apply list_elem_of_In|].
    by apply String.eqb_eq.
  - intros (s & Hin & Heq). exists s. split; [by apply list_elem_of_In|].
    by apply String.eqb_eq.
Qed.

Lemma existsb_name_false (w : World) (n : string) :
  name_free w n → existsb (λ sensor, String.eqb (name sensor) n) (sensors w) = false.
Proof.
  intros Hfree. apply not_true_is_false. rewrite existsb_name_true.
  intros (s & Hin & Heq). by eapply Hfree.
Qed.

Lemma excluded_chars_false (n : string) :
  name_allowed n → existsb (λ ec, Str.contains ec n) excluded_chars = false.
Proof. intros [HLF HCR]. simpl. by rewrite HLF, HCR. Qed.

(** ** Registration under a name in use *)

(** C6: when the registry holds a sensor named [n], registering under [n]
    raises the duplicate-name error and leaves the whole state, so the
    registry and its size, as it was. *)
Theorem register_duplicate_name (w : World) (s : Wiresense) (n : string)
    (f : nat → pyobj) (p : string) :
  s ∈ sensors w → name s = n →
  __init__ n f p w = (Raise (DuplicateNameError n), w).
Proof.
  intros Hin Hname. unfold __init__, bind, get. simpl.
  assert (existsb (λ sensor, String.eqb (name sensor) n) (sensors w) = true) as ->.
  { apply existsb_name_true. eauto. }
  reflexivity.
Qed.

Lemma register_duplicate_name_witness :
  __init__ "temp" Examples.silent "other.csv" Examples.registered
  = (Raise (DuplicateNameError "temp"), Examples.registered)
  ∧ length (sensors Examples.registered) = 1.
Proof.
  split; [|reflexivity].
  apply (register_duplicate_name Examples.registered
           (mkWiresense "temp" Examples.thermometer 1 "data/temp.csv"
                        (Some "data/temp_1700000000.csv"))).
  - vm_compute. left.
  - reflexivity.
Defined.

(** ** Execution before configuration *)

(** C9: while the configured flag is false, [execute] raises the
    not-configured error and changes nothing: the reader is not called, no
    row is written, no frame is sent. *)
Theorem execute_not_configured (w : World) (self : nat) :
  configured w = false →
  execute self w = (Raise NotConfiguredError, w).
Proof. intros Hc. unfold execute, bind, get. simpl. by rewrite Hc. Qed.

Lemma execute_not_configured_witness :
  execute 0 Examples.registered = (Raise NotConfiguredError, Examples.registered).
Proof. apply execute_not_configured. reflexivity. Defined.

(** ** Registration under a new name *)

Lemma alter_app_last {A} (g : A → A) (l : list A) (x : A) :
  alter g (length l) (l ++ [x]) = l ++ [g x].
Proof. by rewrite <-(Nat.add_0_r (length l)), alter_app_r. Qed.

Lemma lookup_app_last {A} (l : list A) (x : A) :
  (l ++ [x]) !! length l = Some x.
Proof. by rewrite lookup_app_r, Nat.sub_diag by lia. Qed.

(** Past the two name checks: the instance is appended, the reader called
    once, and the rest runs from there. *)
Lemma init_fresh (w : World) (n : string) (f : nat → pyobj) (p : string) :
  name_free w n → name_allowed n →
  __init__ n f p w =
  (let self := length (sensors w) in
   if invalid_reading (f 0) then raise InvalidReadingError
   else
     let '(base_name, ext) := OsPath.splitext p in
     makedirs (OsPath.dirname p) ;;
     timestamp <- time_time ;;
     let path := base_name +:+ "_" +:+ pretty timestamp +:+ ext in
     setattr_csv_file_path self path ;;
     match f 0 with
     | Dict items =>
         write_file path (Csv.writerow (PyStr "timestamp" :: (PyStr <$> keys items))) ;;
         ret self
     | Scalar _ => raise (AttributeError "keys")
     end)
  (set_sensors (λ l, l ++ [mkWiresense n f 1 p None]) w).
Proof.
  intros Hfree Hallowed. unfold __init__ at 1, bind at 1, get at 1.
  rewrite (existsb_name_false w n Hfree), (excluded_chars_false n Hallowed).
  unfold bind at 1, modify at 1.
  unfold bind at 1, call_exec_function at 1, bind at 1, getattr at 1.
  cbn [sensors set_sensors]. rewrite lookup_app_last. cbn [mbind option_bind].
  unfold bind at 1, modify at 1. cbn [ret sensors set_sensors exec_function calls].
  unfold set_sensors. cbn [sensors configured active_connections files dirs clock
    sockets listening busy records].
  rewrite alter_app_last. reflexivity.
Qed.

Lemma invalid_reading_spec (data : pyobj) :
  invalid_reading data = true ↔ empty_or_not_mapping data.
Proof.
  unfold empty_or_not_mapping. split.
  - destruct data as [v|[|kv items]]; simpl; try discriminate; eauto.
  - intros [->|[v ->]]; reflexivity.
Qed.

Lemma valid_reading_spec (data : pyobj) :
  invalid_reading data = false ↔ ∃ items, data = Dict items ∧ items ≠ [].
Proof.
  split.
  - destruct data as [v|[|kv items]]; simpl; try discriminate.
    intros _. by eexists.
  - intros (items & -> & Hne). by destruct items.
Qed.

(** A registration whose first reading is rejected stops right after the
    reader has been called: the instance is in the registry, nothing else has
    changed. *)
Lemma init_rejected (w : World) (n : string) (f : nat → pyobj) (p : string) :
  name_free w n → name_allowed n → empty_or_not_mapping (f 0) →
  __init__ n f p w
  = (Raise InvalidReadingError,
     set_sensors (λ l, l ++ [mkWiresense n f 1 p None]) w).
Proof.
  intros Hfree Hallowed Hbad. rewrite init_fresh by done.
  apply invalid_reading_spec in Hbad. cbn zeta. by rewrite Hbad.
Qed.

(** C3: when the first call of the reader returns the empty mapping or no
    mapping at all, registration raises the invalid-reading error, and the
    storage is as before: no file and no directory has been created. *)
Theorem register_empty_reading (w : World) (n : string) (f : nat → pyobj)
    (p : string) :
  name_free w n → name_allowed n → empty_or_not_mapping (f 0) →
  ∃ w', __init__ n f p w = (Raise InvalidReadingError, w')
        ∧ files w' = files w ∧ dirs w' = dirs w.
Proof.
  intros Hfree Hallowed Hbad. eexists. split; [by apply init_rejected|done].
Qed.

Lemma register_empty_reading_witness :
  ∃ w', __init__ "temp" Examples.silent "data/temp.csv" Examples.fresh
        = (Raise InvalidReadingError, w')
        ∧ files w' = files Examples.fresh ∧ dirs w' = dirs Examples.fresh.
Proof.
  apply register_empty_reading.
  - intros s Hin. vm_compute in Hin. inversion Hin.
  - split; reflexivity.
  - left. reflexivity.
Defined.

(** C4: the instance is appended to the registry before its first reading
    is checked.  When that reading is rejected the call raises, yet the
    instance, which has no log file, stays in the registry, and every later
    registration under the same name raises the duplicate-name error. *)
Theorem register_rejected_keeps_name (w : World) (n : string) (f : nat → pyobj)
    (p : string) :
  name_free w n → name_allowed n → empty_or_not_mapping (f 0) →
  ∃ w', __init__ n f p w = (Raise InvalidReadingError, w')
        ∧ sensors w' = sensors w ++ [mkWiresense n f 1 p None]
        ∧ ∀ (w'' : World) (g : nat → pyobj) (q : string),
            sensors w' `prefix_of` sensors w'' →
            __init__ n g q w'' = (Raise (DuplicateNameError n), w'').
Proof.
  intros Hfree Hallowed Hbad. eexists. split; [by apply init_rejected|].
  split; [done|]. intros w'' g q [rest Hrest].
  unfold __init__, bind, get. cbn [sensors set_sensors] in *.
  assert (existsb (λ sensor, String.eqb (name sensor) n) (sensors w'') = true) as ->.
  { apply existsb_name_true. exists (mkWiresense n f 1 p None). split; [|done].
    rewrite Hrest. set_solver. }
  reflexivity.
Qed.

Lemma register_rejected_keeps_name_witness :
  ∃ w', __init__ "temp" Examples.silent "data/temp.csv" Examples.fresh
        = (Raise InvalidReadingError, w')
        ∧ sensors w' = sensors Examples.fresh
                       ++ [mkWiresense "temp" Examples.silent 1 "data/temp.csv" None]
        ∧ ∀ (w'' : World) (g : nat → pyobj) (q : string),
            sensors w' `prefix_of` sensors w'' →
            __init__ "temp" g q w'' = (Raise (DuplicateNameError "temp"), w'').
Proof.
  apply register_rejected_keeps_name.
  - intros s Hin. vm_compute in Hin. inversion Hin.
  - split; reflexivity.
  - left. reflexivity.
Defined.

(** ** The log file of a new sensor *)

Lemma app_String (a : ascii) (s t : string) :
  String a s +:+ t = String a (s +:+ t).
Proof. reflexivity. Qed.

Lemma take_drop (n : nat) (s : string) : Str.take n s +:+ Str.drop n s = s.
Proof.
  revert s. induction n as [|n IH]; intros [|a s]; simpl; try done.
  by rewrite app_String, IH.
Qed.

Lemma splitext_app (p : string) :
  (OsPath.splitext p).1 +:+ (OsPath.splitext p).2 = p.
Proof.
  unfold OsPath.splitext.
  destruct (_ && _); simpl; [apply take_drop|].
  induction p as [|a p IH]; [done|]. by rewrite app_String, IH.
Qed.

Lemma scan_unquoted (s : string) : Csv.quoted s = false → Csv.scan s = (s, false).
Proof.
  unfold Csv.quoted. induction s as [|c s IH]; simpl; [done|].
  destruct (Csv.scan s) as [b q]. simpl in IH.
  destruct (Ascii.eqb c Str.dquote); simpl; [discriminate|].
  intros [Hc Hq]%orb_false_iff. rewrite Hc. subst q.
  specialize (IH eq_refl). by injection IH as ->.
Qed.

Lemma field_unquoted (s : string) : Csv.quoted s = false → Csv.field (PyStr s) = s.
Proof. intros H. unfold Csv.field. simpl. by rewrite scan_unquoted. Qed.

Lemma fields_unquoted (l : list string) :
  Forall (λ s, Csv.quoted s = false) l → Csv.field <$> (PyStr <$> l) = l.
Proof.
  induction 1 as [|s l Hs _ IH]; [done|].
  by rewrite !fmap_cons, field_unquoted, IH.
Qed.

(** The header of a log whose column names need no quoting is the plain
    comma-separated line. *)
Lemma header_unquoted (columns : list string) :
  Forall (λ s, Csv.quoted s = false) columns →
  Csv.writerow (PyStr "timestamp" :: (PyStr <$> columns))
  = Str.join "," ("timestamp" :: columns) +:+ Csv.lineterminator.
Proof.
  intros H. unfold Csv.writerow.
  change (Csv.field <$> PyStr "timestamp" :: (PyStr <$> columns))
    with ("timestamp" :: (Csv.field <$> (PyStr <$> columns))).
  rewrite fields_unquoted by done.
  by destruct columns.
Qed.

Lemma existsb_name_free (w : World) (n : string) :
  existsb (λ sensor, String.eqb (name sensor) n) (sensors w) = false → name_free w n.
Proof.
  intros H s Hin Heq. apply not_true_iff_false in H. apply H.
  apply existsb_name_true. eauto.
Qed.

Lemma excluded_chars_allowed (n : string) :
  existsb (λ ec, Str.contains ec n) excluded_chars = false → name_allowed n.
Proof.
  simpl. rewrite orb_false_r. intros [H1 H2]%orb_false_iff. by split.
Qed.

(** A registration that returns has passed the two name checks. *)
Lemma init_ok_fresh (w w' : World) (n : string) (f : nat → pyobj) (p : string)
    (self : nat) :
  __init__ n f p w = (Ok self, w') → name_free w n ∧ name_allowed n.
Proof.
  unfold __init__, bind at 1, get at 1.
  destruct (existsb _ (sensors w)) eqn:Hdup; [discriminate|].
  destruct (existsb _ excluded_chars) eqn:Hchars; [discriminate|].
  intros _. split; [by apply existsb_name_free|by apply excluded_chars_allowed].
Qed.

(** C10: a registration that succeeds has created one file and changed no
    other: the file at the base path without its extension, an underscore,
    the clock's reading and the extension; its content is the header row,
    [timestamp] and then the keys of the first reading in their order.  When
    no key needs quoting the row is the comma-separated line itself. *)
Theorem register_creates_log (w w' : World) (n : string) (f : nat → pyobj)
    (p : string) (self : nat) :
  __init__ n f p w = (Ok self, w') →
  ∃ items,
    f 0 = Dict items ∧ items ≠ []
    ∧ let base_name := (OsPath.splitext p).1 in
      let ext := (OsPath.splitext p).2 in
      let path := base_name +:+ "_" +:+ pretty (clock w) +:+ ext in
      let header := Csv.writerow (PyStr "timestamp" :: (PyStr <$> keys items)) in
      base_name +:+ ext = p
      ∧ files w' = <[path := header]> (files w)
      ∧ self = length (sensors w)
      ∧ sensors w' = sensors w ++ [mkWiresense n f 1 p (Some path)]
      ∧ (Forall (λ k, Csv.quoted k = false) (keys items) →
         header = Str.join "," ("timestamp" :: keys items) +:+ Csv.lineterminator).
Proof.
  intros Hinit. destruct (init_ok_fresh _ _ _ _ _ _ Hinit) as [Hfree Hallowed].
  rewrite init_fresh in Hinit by done. cbn zeta in Hinit.
  destruct (invalid_reading (f 0)) eqn:Hvalid; [discriminate|].
  apply valid_reading_spec in Hvalid as (items & Hitems & Hne).
  exists items. split; [done|]. split; [done|].
  destruct (OsPath.splitext p) as [base_name ext] eqn:Hsplit.
  pose proof (splitext_app p) as Happ. rewrite Hsplit in Happ.
  cbn [fst snd] in *. split; [done|].
  rewrite Hitems in Hinit.
  unfold bind at 1 in Hinit.
  destruct (makedirs _ _) as [[[]|e] w1] eqn:Hmk; [|discriminate].
  unfold makedirs in Hmk.
  destruct (Str.is_empty (OsPath.dirname p)); [discriminate|].
  destruct (isfile _ _); [discriminate|].
  injection Hmk as <-.
  unfold bind at 1, time_time, get at 1 in Hinit. cbn [clock set_dirs set_sensors] in Hinit.
  unfold bind at 1, setattr_csv_file_path, modify at 1 in Hinit.
  unfold bind at 1, write_file, bind at 1 in Hinit.
  destruct (open_for_writing _ _) as [[[]|e] w2] eqn:Hopen; [|discriminate].
  assert (w2 = set_sensors
                 (λ l, alter (with_csv_file_path (base_name +:+ "_" +:+ pretty (clock w) +:+ ext))
                             (length (sensors w)) l)
                 (set_dirs (λ ds, ds ∪ list_to_set
                              (with_parents (String.length (OsPath.dirname p))
                                            (OsPath.dirname p)))
                    (set_sensors (λ l, l ++ [mkWiresense n f 1 p None]) w))) as ->.
  { unfold open_for_writing in Hopen.
    repeat match type of Hopen with
           | (if ?b then _ else _) = _ => destruct b; try discriminate
           end; by injection Hopen as <-. }
  unfold modify, ret in Hinit. injection Hinit as <- <-.
  cbn [files sensors set_files set_sensors set_dirs].
  rewrite alter_app_last. split; [done|]. split; [done|]. split; [done|].
  apply header_unquoted.
Qed.

Lemma register_creates_log_witness :
  __init__ "temp" Examples.thermometer "data/temp.csv" Examples.fresh
  = (Ok 0, Examples.registered)
  ∧ files Examples.registered
    = <["data/temp_1700000000.csv" := "timestamp,c" +:+ Csv.lineterminator]>
        (files Examples.fresh).
Proof.
  assert (__init__ "temp" Examples.thermometer "data/temp.csv" Examples.fresh
          = (Ok 0, Examples.registered)) as Hinit by reflexivity.
  split; [exact Hinit|].
  destruct (register_creates_log _ _ _ _ _ _ Hinit)
    as (items & Hitems & _ & _ & Hfiles & _ & _ & Hheader).
  injection Hitems as <-. rewrite Hfiles, Hheader.
  - reflexivity.
  - repeat constructor.
Defined.

(** ** Broadcasting *)

Lemma send_str_healthy (w : World) (ws : nat) (msg : string) (c : WebSocket) :
  sockets w !! ws = Some c → closing c = false →
  send_str ws msg w
  = (Ok tt, set_sockets (λ ss, <[ws := mkWebSocket (sent c ++ [msg]) false]> ss) w).
Proof. intros Hc Hopen. unfold send_str. by rewrite Hc, Hopen. Qed.

Lemma send_str_unhealthy (w : World) (ws : nat) (msg : string) :
  ¬ healthy w ws → ∃ e, send_str ws msg w = (Raise e, w).
Proof.
  intros Hbad. unfold send_str. destruct (sockets w !! ws) as [c|] eqn:Hc; [|eauto].
  destruct (closing c) eqn:Hclosing; [eauto|].
  exfalso. apply Hbad. by exists c.
Qed.

Lemma same_but_sockets_refl (w : World) : same_but_sockets w w.
Proof. by destruct w. Qed.

Lemma same_but_sockets_set (w w' : World) (g : gmap nat WebSocket → gmap nat WebSocket) :
  same_but_sockets (set_sockets g w) w' → same_but_sockets w w'.
Proof. unfold same_but_sockets. intros ->. by destruct w. Qed.

(** The loop of [_broadcast] over healthy connections, followed by one
    that is not: the healthy ones have the message, nobody else has
    anything, and the loop ends with the exception of the failed send. *)
Lemma for_each_send_prefix (msg : string) (pre : list nat) :
  ∀ (w : World) (rest : list nat),
    NoDup pre → (∀ x, x ∈ pre → healthy w x) →
    ∃ w1, same_but_sockets w w1
          ∧ (∀ x, x ∈ pre → received w w1 x msg)
          ∧ (∀ x, x ∉ pre → sockets w1 !! x = sockets w !! x)
          ∧ for_each (pre ++ rest) (λ ws, send_str ws msg) w
            = for_each rest (λ ws, send_str ws msg) w1.
Proof.
  induction pre as [|a pre IH]; intros w rest Hnodup Hhealthy.
  - exists w. split; [apply same_but_sockets_refl|]. split; [|done].
    intros x Hx. inversion Hx.
  - apply NoDup_cons in Hnodup as [Hnotin Hnodup].
    destruct (Hhealthy a) as (c & Hc & Hopen); [left|].
    set (w0 := set_sockets (λ ss, <[a := mkWebSocket (sent c ++ [msg]) false]> ss) w).
    destruct (IH w0 rest Hnodup) as (w1 & Hsame & Hrecv & Hother & Hrun).
    { intros x Hx. destruct (Hhealthy x) as (cx & Hcx & Hopenx); [by right|].
      exists cx. split; [|done]. subst w0. cbn [sockets set_sockets].
      rewrite lookup_insert_ne; [done|]. intros ->. done. }
    exists w1. split; [by eapply same_but_sockets_set|]. split; [|split].
    + intros x [->|Hx]%elem_of_cons.
      * exists c. split; [done|]. rewrite Hother by done.
        subst w0. cbn [sockets set_sockets]. by rewrite lookup_insert_eq.
      * destruct (Hrecv x Hx) as (cx & Hcx & Hcx'). exists cx. split; [|done].
        subst w0. cbn [sockets set_sockets] in Hcx.
        rewrite lookup_insert_ne in Hcx; [done|]. intros ->. done.
    + intros x [Hne Hx]%not_elem_of_cons. rewrite Hother by done.
      subst w0. cbn [sockets set_sockets]. by rewrite lookup_insert_ne.
    + cbn [app for_each]. unfold bind at 1.
      by rewrite (send_str_healthy w a msg c Hc Hopen).
Qed.

(** Whatever the connections are, the loop touches the sockets only. *)
Lemma for_each_send_frame (msg : string) (l : list nat) (w : World) :
  same_but_sockets w (for_each l (λ ws, send_str ws msg) w).2.
Proof.
  revert w. induction l as [|a l IH]; intros w; [apply same_but_sockets_refl|].
  cbn [for_each]. unfold bind, send_str.
  destruct (sockets w !! a) as [c|]; [|apply same_but_sockets_refl].
  destruct (closing c); [apply same_but_sockets_refl|].
  eapply same_but_sockets_set, IH.
Qed.

Lemma healthy_dec (w : World) (ws : nat) : {healthy w ws} + {¬ healthy w ws}.
Proof.
  unfold healthy. destruct (sockets w !! ws) as [c|] eqn:Hc.
  - destruct (closing c) eqn:Hclosing.
    + right. intros (c' & [= <-] & Hopen). congruence.
    + left. eauto.
  - right. intros (c' & [=] & _).
Qed.

(** A list with a connection that is not healthy splits at the first one. *)
Lemma first_unhealthy (w : World) (l : list nat) (ws : nat) :
  ws ∈ l → ¬ healthy w ws →
  ∃ pre x post, l = pre ++ x :: post ∧ (∀ y, y ∈ pre → healthy w y) ∧ ¬ healthy w x.
Proof.
  induction l as [|a l IH]; intros Hin Hbad; [inversion Hin|].
  destruct (healthy_dec w a) as [Ha|Ha].
  - destruct IH as (pre & x & post & -> & Hpre & Hx); [|done|].
    { apply elem_of_cons in Hin as [->|Hin]; done. }
    exists (a :: pre), x, post. split; [done|]. split; [|done].
    intros y [->|Hy]%elem_of_cons; auto.
  - exists [], a, l. split; [done|]. split; [|done]. intros y Hy. inversion Hy.
Qed.

(** [_broadcast] when every send succeeds. *)
Lemma broadcast_all_healthy (msg : string) (w : World) :
  NoDup (active_connections w) →
  (∀ ws, ws ∈ active_connections w → healthy w ws) →
  ∃ w1, same_but_sockets w w1
        ∧ (∀ ws, ws ∈ active_connections w → received w w1 ws msg)
        ∧ (∀ ws, ws ∉ active_connections w → sockets w1 !! ws = sockets w !! ws)
        ∧ _broadcast msg w
          = (Ok tt, set_records (λ r, r ++ [(INFO, "Broadcast message send!")]) w1).
Proof.
  intros Hnodup Hhealthy.
  destruct (for_each_send_prefix msg (active_connections w) w [] Hnodup Hhealthy)
    as (w1 & Hsame & Hrecv & Hother & Hrun).
  exists w1. repeat (split; [done|]).
  unfold _broadcast, bind at 1, get. rewrite app_nil_r in Hrun.
  unfold bind at 1. rewrite Hrun. reflexivity.
Qed.

(** [_broadcast] when the send to [ws] is the first that fails: the loop
    is left with the exception, past the connections before [ws], short of
    those behind it. *)
Lemma broadcast_first_failure (msg : string) (w : World) (pre post : list nat) (ws : nat) :
  NoDup (active_connections w) →
  active_connections w = pre ++ ws :: post →
  (∀ x, x ∈ pre → healthy w x) → ¬ healthy w ws →
  ∃ e w1, same_but_sockets w w1
          ∧ (∀ x, x ∈ pre → received w w1 x msg)
          ∧ (∀ x, x ∉ pre → sockets w1 !! x = sockets w !! x)
          ∧ _broadcast msg w = (Raise e, w1).
Proof.
  intros Hnodup Hsplit Hpre Hbad. rewrite Hsplit in Hnodup.
  apply NoDup_app in Hnodup as (Hnodup & Hdisj & _).
  destruct (for_each_send_prefix msg pre w (ws :: post) Hnodup Hpre)
    as (w1 & Hsame & Hrecv & Hother & Hrun).
  assert (¬ healthy w1 ws) as Hbad1.
  { unfold healthy. rewrite Hother; [done|]. intros Hin. by eapply Hdisj; [|left]. }
  destruct (send_str_unhealthy w1 ws msg Hbad1) as [e He].
  exists e, w1. repeat (split; [done|]).
  unfold _broadcast, bind at 1, get. rewrite Hsplit. unfold bind at 1.
  rewrite Hrun. cbn [for_each]. unfold bind at 1. by rewrite He.
Qed.

(** ** Reading the payload back *)

Lemma append_assoc (s t u : string) : (s +:+ t) +:+ u = s +:+ (t +:+ u).
Proof. induction s as [|a s IH]; [done|]. by rewrite !app_String, IH. Qed.

Lemma append_nil_r (s : string) : s +:+ EmptyString = s.
Proof. induction s as [|a s IH]; [done|]. by rewrite app_String, IH. Qed.

Lemma length_append (s t : string) :
  String.length (s +:+ t) = String.length s + String.length t.
Proof. induction s as [|a s IH]; [done|]. rewrite app_String. simpl. by rewrite IH. Qed.

Lemma unicode_escape_hex (c : ascii) :
  Json.unicode_escape "0" "0" (Json.hex_digit (N_of_ascii c / 16))
                      (Json.hex_digit (N_of_ascii c mod 16))
  = Some c.
Proof. destruct c as [[] [] [] [] [] [] [] []]; vm_compute; reflexivity. Qed.

Lemma decode_str_plain (c : ascii) (t : string) :
  Ascii.eqb c Str.dquote = false → Ascii.eqb c Str.backslash = false →
  Json.decode_str (String c t)
  = '(d, rest) ← Json.decode_str t; Some (String c d, rest).
Proof. intros H1 H2. cbn [Json.decode_str]. by rewrite H1, H2. Qed.

Lemma decode_str_simple (e a : ascii) (t : string) :
  Ascii.eqb e "u" = false → Json.simple_escape e = Some a →
  Json.decode_str (String Str.backslash (String e t))
  = '(d, rest) ← Json.decode_str t; Some (String a d, rest).
Proof. intros H1 H2. cbn [Json.decode_str]. by rewrite H1, H2. Qed.

Lemma decode_str_unicode (h1 h2 h3 h4 : ascii) (t : string) :
  Json.decode_str
    (String Str.backslash (String "u" (String h1 (String h2 (String h3 (String h4 t))))))
  = a ← Json.unicode_escape h1 h2 h3 h4;
    '(d, rest) ← Json.decode_str t; Some (String a d, rest).
Proof. reflexivity. Qed.

(** One encoded character is decoded to itself. *)
Lemma decode_escape_char (c : ascii) (t : string) :
  Json.decode_str (Json.escape_char c +:+ t)
  = '(d, rest) ← Json.decode_str t; Some (String c d, rest).
Proof.
  unfold Json.escape_char.
  destruct (Json.plain c) eqn:Hplain.
  { unfold Json.plain in Hplain.
    apply andb_true_iff in Hplain as [[_ H1%negb_true_iff]%andb_true_iff H2%negb_true_iff].
    by apply decode_str_plain. }
  destruct (Ascii.eqb c Str.dquote) eqn:E1.
  { apply Ascii.eqb_eq in E1 as ->. by apply decode_str_simple. }
  destruct (Ascii.eqb c Str.backslash) eqn:E2.
  { apply Ascii.eqb_eq in E2 as ->. by apply decode_str_simple. }
  destruct (Ascii.eqb c Str.LF) eqn:E3.
  { apply Ascii.eqb_eq in E3 as ->. by apply decode_str_simple. }
  destruct (Ascii.eqb c Str.CR) eqn:E4.
  { apply Ascii.eqb_eq in E4 as ->. by apply decode_str_simple. }
  destruct (Ascii.eqb c Str.HT) eqn:E5.
  { apply Ascii.eqb_eq in E5 as ->. by apply decode_str_simple. }
  destruct (Ascii.eqb c Str.BS) eqn:E6.
  { apply Ascii.eqb_eq in E6 as ->. by apply decode_str_simple. }
  destruct (Ascii.eqb c Str.FF) eqn:E7.
  { apply Ascii.eqb_eq in E7 as ->. by apply decode_str_simple. }
  cbn zeta.
  change (("\u00" +:+ String (Json.hex_digit (N_of_ascii c / 16))
                     (Str.str1 (Json.hex_digit (N_of_ascii c mod 16)))) +:+ t)
    with (String Str.backslash
            (String "u" (String "0" (String "0"
               (String (Json.hex_digit (N_of_ascii c / 16))
                  (String (Json.hex_digit (N_of_ascii c mod 16)) t)))))).
  by rewrite decode_str_unicode, unicode_escape_hex.
Qed.

Lemma decode_escape (s rest : string) :
  Json.decode_str (Json.escape s +:+ String Str.dquote rest) = Some (s, rest).
Proof.
  induction s as [|c s IH]; [done|].
  cbn [Json.escape]. by rewrite append_assoc, decode_escape_char, IH.
Qed.

Lemma encode_str_app (s rest : string) :
  Json.encode_str s +:+ rest
  = String Str.dquote (Json.escape s +:+ String Str.dquote rest).
Proof. unfold Json.encode_str. by rewrite app_String, append_assoc. Qed.

Lemma pretty_N_char_digit (m : N) :
  (m < 10)%N →
  Json.is_digit (pretty_N_char m) = true ∧ Json.digit_value (pretty_N_char m) = m.
Proof.
  intros Hm.
  assert (m = 0 ∨ m = 1 ∨ m = 2 ∨ m = 3 ∨ m = 4 ∨ m = 5 ∨ m = 6 ∨ m = 7
          ∨ m = 8 ∨ m = 9)%N as Hcases by lia.
  repeat (destruct Hcases as [->|Hcases]; [done|]). by subst m.
Qed.

Lemma int_of_digits_snoc (acc : N) (d : string) (c : ascii) :
  Json.int_of_digits acc (d +:+ Str.str1 c)
  = (Json.int_of_digits acc d * 10 + Json.digit_value c)%N.
Proof.
  revert acc. induction d as [|a d IH]; intros acc; [done|].
  rewrite app_String. cbn [Json.int_of_digits]. apply IH.
Qed.

Lemma all_digits_snoc (d : string) (c : ascii) :
  Json.all_digits d = true → Json.is_digit c = true →
  Json.all_digits (d +:+ Str.str1 c) = true.
Proof.
  intros Hd Hc. induction d as [|a d IH].
  - simpl. by rewrite Hc.
  - rewrite app_String. simpl in *. apply andb_true_iff in Hd as [-> Hd].
    by rewrite IH.
Qed.

(** [pretty_N_go x s] puts the decimal digits of [x] in front of [s]. *)
Lemma pretty_N_go_digits (x : N) :
  ∀ s, ∃ d, pretty_N_go x s = d +:+ s
            ∧ Json.all_digits d = true
            ∧ Json.int_of_digits 0 d = x
            ∧ ((0 < x)%N → d ≠ EmptyString).
Proof.
  induction (N.lt_wf_0 x) as [x _ IH]. intros s.
  destruct (decide (x = 0%N)) as [->|Hx].
  - exists EmptyString. rewrite pretty_N_go_0. do 3 (split; [done|]). lia.
  - rewrite pretty_N_go_step by lia.
    destruct (IH (x `div` 10)%N) with (s := String (pretty_N_char (x `mod` 10)) s)
      as (d & Hgo & Hdigits & Hvalue & _).
    { apply N.div_lt; lia. }
    destruct (pretty_N_char_digit (x `mod` 10)%N) as [Hdigit Hchar].
    { apply N.mod_lt. lia. }
    exists (d +:+ Str.str1 (pretty_N_char (x `mod` 10))).
    rewrite Hgo, append_assoc. split; [done|]. split; [by apply all_digits_snoc|].
    split.
    + rewrite int_of_digits_snoc, Hvalue, Hchar.
      rewrite N.mul_comm. symmetry. apply N.div_mod. lia.
    + intros _. by destruct d.
Qed.

Lemma pretty_N_digits (x : N) :
  ∃ c d, pretty x = String c d
         ∧ Json.all_digits (String c d) = true
         ∧ Json.int_of_digits 0 (String c d) = x.
Proof.
  unfold pretty, pretty_N. destruct (decide (x = 0%N)) as [->|Hx].
  - by exists "0"%char, EmptyString.
  - destruct (pretty_N_go_digits x EmptyString) as (d & Hgo & Hdigits & Hvalue & Hne).
    rewrite append_nil_r in Hgo. destruct d as [|c d]; [by destruct Hne; [lia|]|].
    by exists c, d.
Qed.

Lemma digit_not (c x : ascii) :
  Json.is_digit c = true → Json.is_digit x = false → Ascii.eqb c x = false.
Proof.
  intros Hc Hx. destruct (Ascii.eqb c x) eqn:Heq; [|done].
  apply Ascii.eqb_eq in Heq as ->. congruence.
Qed.

Lemma digits_contain (x : ascii) (d : string) :
  Json.all_digits d = true → Json.is_digit x = false → Str.contains x d = false.
Proof.
  intros Hd Hx. induction d as [|c d IH]; [done|]. simpl in *.
  apply andb_true_iff in Hd as [Hc Hd]. by rewrite (digit_not c x), IH.
Qed.

Lemma digits_no_fraction (d : string) :
  Json.all_digits d = true → Json.has_fraction_or_exponent d = false.
Proof.
  intros Hd. unfold Json.has_fraction_or_exponent.
  by rewrite !digits_contain.
Qed.

Lemma digits_number_chars (d : string) :
  Json.all_digits d = true → Json.all_number_chars d = true.
Proof.
  induction d as [|c d IH]; [done|]. simpl.
  intros [Hc Hd]%andb_true_iff. unfold Json.number_char. by rewrite Hc, IH.
Qed.

Lemma span_number_app (t rest : string) :
  Json.all_number_chars t = true → Json.delimited rest = true →
  Json.span_number (t +:+ rest) = (t, rest).
Proof.
  intros Ht Hrest. induction t as [|c t IH].
  - destruct rest as [|c rest]; [done|]. simpl in *.
    apply orb_true_iff in Hrest as [->%Ascii.eqb_eq| ->%Ascii.eqb_eq]; done.
  - rewrite app_String. simpl in *. apply andb_true_iff in Ht as [-> Ht].
    by rewrite IH.
Qed.

Lemma parse_number_int (n : Z) (rest : string) :
  Json.delimited rest = true →
  Json.parse_number (pretty n +:+ rest) = Some (PyInt n, rest).
Proof.
  intros Hrest. unfold Json.parse_number, pretty, pretty_Z.
  destruct n as [|p|p].
  - by rewrite span_number_app.
  - destruct (pretty_N_digits (Npos p)) as (c & d & Hp & Hdigits & Hvalue).
    change (pretty p) with (pretty (Npos p)). rewrite Hp.
    rewrite span_number_app by (done || by apply digits_number_chars).
    rewrite digits_no_fraction by done.
    assert (Ascii.eqb c "-" = false) as ->.
    { simpl in Hdigits. apply andb_true_iff in Hdigits as [Hc _]. by apply digit_not. }
    by rewrite Hdigits, Hvalue.
  - destruct (pretty_N_digits (Npos p)) as (c & d & Hp & Hdigits & Hvalue).
    change (pretty p) with (pretty (Npos p)). rewrite Hp.
    change ("-" +:+ String c d) with (String "-" (String c d)).
    assert (Json.all_number_chars (String "-" (String c d)) = true) as Hchars.
    { change (Json.number_char "-" && Json.all_number_chars (String c d) = true).
      by rewrite digits_number_chars. }
    rewrite span_number_app by done.
    change (Json.has_fraction_or_exponent (String "-" (String c d)))
      with (Json.has_fraction_or_exponent (String c d)).
    rewrite digits_no_fraction by done.
    rewrite Ascii.eqb_refl, Hdigits, Hvalue. done.
Qed.

(** A number character starts nothing but a number. *)
Lemma number_char_start (c : ascii) (t : string) :
  Json.number_char c = true →
  Json.parse_scalar (String c t) = Json.parse_number (String c t)
  ∧ Json.whitespace c = false
  ∧ Ascii.eqb c "{" = false.
Proof.
  intros H.
  destruct c as [[] [] [] [] [] [] [] []]; try (by vm_compute in H);
    repeat split; reflexivity.
Qed.

Lemma pretty_Z_start (n : Z) :
  ∃ c d, pretty n = String c d ∧ Json.number_char c = true.
Proof.
  unfold pretty, pretty_Z. destruct n as [|p|p].
  - by exists "0"%char, EmptyString.
  - destruct (pretty_N_digits (Npos p)) as (c & d & Hp & Hdigits & _).
    exists c, d. split; [done|]. simpl in Hdigits.
    apply andb_true_iff in Hdigits as [Hc _]. unfold Json.number_char. by rewrite Hc.
  - by eexists "-"%char, _.
Qed.

Lemma float_literal_start (r : string) :
  Json.float_literal r = true →
  ∃ c d, r = String c d ∧ Json.number_char c = true
         ∧ Json.all_number_chars r = true
         ∧ Json.has_fraction_or_exponent r = true.
Proof.
  unfold Json.float_literal.
  intros [[Hne Hchars]%andb_true_iff Hfraction]%andb_true_iff.
  destruct r as [|c d]; [done|]. exists c, d. split; [done|].
  simpl in Hchars. pose proof Hchars as [Hc _]%andb_true_iff. done.
Qed.

(** An encoded scalar, followed by a comma or a brace, is read back. *)
Lemma parse_scalar_encode (v : scalar) (rest : string) :
  float_ok v → Json.delimited rest = true →
  Json.parse_scalar (Json.encode_scalar v +:+ rest) = Some (v, rest)
  ∧ Json.skip_ws (Json.encode_scalar v +:+ rest) = Json.encode_scalar v +:+ rest
  ∧ ∃ c t, Json.encode_scalar v +:+ rest = String c t ∧ Ascii.eqb c "{" = false.
Proof.
  intros Hfloat Hrest. destruct v as [|[]|n|r|s]; cbn [Json.encode_scalar].
  - repeat split; by eexists _, _.
  - repeat split; by eexists _, _.
  - repeat split; by eexists _, _.
  - destruct (pretty_Z_start n) as (c & d & Hp & Hc).
    destruct (number_char_start c (d +:+ rest) Hc) as (Hparse & Hws & Hbrace).
    split; [|split].
    + rewrite Hp, app_String, Hparse, <-app_String, <-Hp. by apply parse_number_int.
    + rewrite Hp, app_String. cbn [Json.skip_ws]. by rewrite Hws.
    + exists c, (d +:+ rest). by rewrite Hp, app_String.
  - destruct (float_literal_start r Hfloat) as (c & d & -> & Hc & Hchars & Hfraction).
    destruct (number_char_start c (d +:+ rest) Hc) as (Hparse & Hws & Hbrace).
    split; [|split].
    + rewrite app_String, Hparse, <-app_String. unfold Json.parse_number.
      by rewrite span_number_app, Hfraction.
    + rewrite app_String. cbn [Json.skip_ws]. by rewrite Hws.
    + exists c, (d +:+ rest). by rewrite app_String.
  - rewrite encode_str_app. split; [|split].
    + cbn [Json.parse_scalar]. rewrite Ascii.eqb_refl. by rewrite decode_escape.
    + reflexivity.
    + by eexists _, _.
Qed.

Lemma skip_ws_other (c : ascii) (t : string) :
  Json.whitespace c = false → Json.skip_ws (String c t) = String c t.
Proof. intros H. cbn [Json.skip_ws]. by rewrite H. Qed.

Lemma skip_ws_delimited (rest : string) :
  Json.delimited rest = true → Json.skip_ws rest = rest.
Proof.
  destruct rest as [|c rest]; [done|]. cbn [Json.delimited].
  intros [->%Ascii.eqb_eq| ->%Ascii.eqb_eq]%orb_true_iff; reflexivity.
Qed.

Section members.
Context {V : Type} (enc : V → string) (value : string → option (V * string))
        (ok : V → Prop).

Hypothesis value_enc :
  ∀ v rest, ok v → Json.delimited rest = true →
    value (enc v +:+ rest) = Some (v, rest)
    ∧ Json.skip_ws (enc v +:+ rest) = enc v +:+ rest.

(** One member, then what the character behind it asks for. *)
Lemma parse_member (k : string) (v : V) (fuel : nat) (c : ascii) (rest : string) :
  ok v → Json.delimited (String c rest) = true →
  Json.parse_members value (S fuel)
    ((Json.encode_str k +:+ ": " +:+ enc v) +:+ String c rest)
  = if Ascii.eqb c ","
    then '(members, s) ← Json.parse_members value fuel rest;
         Some ((k, v) :: members, s)
    else Some ([(k, v)], rest).
Proof.
  intros Hok Hrest.
  destruct (value_enc v (String c rest) Hok Hrest) as [Hvalue Hskip].
  rewrite !append_assoc, encode_str_app. cbn [Json.parse_members].
  rewrite skip_ws_other by done. rewrite Ascii.eqb_refl, decode_escape.
  cbn [mbind option_bind].
  change (": " +:+ enc v +:+ String c rest)
    with (String ":" (String " " (enc v +:+ String c rest))).
  rewrite skip_ws_other by done. rewrite Ascii.eqb_refl.
  change (Json.skip_ws (String " " (enc v +:+ String c rest)))
    with (Json.skip_ws (enc v +:+ String c rest)).
  rewrite Hskip, Hvalue. cbn [mbind option_bind].
  rewrite (skip_ws_delimited _ Hrest).
  cbn [Json.delimited] in Hrest.
  destruct (Ascii.eqb c ","); [done|]. cbn [orb] in Hrest. by rewrite Hrest.
Qed.

Lemma parse_members_space (fuel : nat) (s : string) :
  Json.parse_members value fuel (String " " s) = Json.parse_members value fuel s.
Proof. by destruct fuel. Qed.

(** The members of an encoded object, up to its closing brace. *)
Lemma parse_members_encode (items : list (string * V)) :
  ∀ (fuel : nat) (rest : string),
    items ≠ [] → (length items ≤ fuel)%nat → Forall (λ kv, ok kv.2) items →
    Json.parse_members value fuel
      (Str.join ", " ((λ kv, Json.encode_str kv.1 +:+ ": " +:+ enc kv.2) <$> items)
       +:+ String "}" rest)
    = Some (items, rest).
Proof.
  induction items as [|[k v] items IH]; intros fuel rest Hne Hfuel Hok; [done|].
  apply Forall_cons in Hok as [Hv Hok]. cbn [fst snd] in Hv.
  destruct fuel as [|fuel]; [simpl in Hfuel; lia|].
  destruct items as [|kv items].
  - cbn [fmap list_fmap Str.join fst snd]. by rewrite parse_member.
  - change (Str.join ", " ((λ kv, Json.encode_str kv.1 +:+ ": " +:+ enc kv.2)
                             <$> (k, v) :: kv :: items))
      with ((Json.encode_str k +:+ ": " +:+ enc v) +:+ ", "
            +:+ Str.join ", " ((λ kv, Json.encode_str kv.1 +:+ ": " +:+ enc kv.2)
                                 <$> kv :: items)).
    rewrite append_assoc.
    change ((", " +:+ ?x) +:+ ?y) with (String "," (String " " (x +:+ y))).
    rewrite parse_member by done. cbn [Ascii.eqb Bool.eqb].
    rewrite parse_members_space, IH; [done|done|simpl in *; lia|done].
Qed.

(** An encoded object is read back. *)
Lemma parse_object_encode (items : list (string * V)) (fuel : nat) (rest : string) :
  (length items ≤ fuel)%nat → Forall (λ kv, ok kv.2) items →
  Json.parse_object value fuel (Json.encode_dict enc items +:+ rest)
  = Some (items, rest).
Proof.
  intros Hfuel Hok. unfold Json.encode_dict, Json.parse_object.
  rewrite !append_assoc.
  change ("{" +:+ ?x) with (String "{" x).
  rewrite skip_ws_other by done. rewrite Ascii.eqb_refl.
  change ("}" +:+ rest) with (String "}" rest).
  destruct items as [|[k v] items]; [done|].
  rewrite parse_members_encode by done.
  assert (∃ t, Str.join ", " ((λ kv, Json.encode_str kv.1 +:+ ": " +:+ enc kv.2)
                                <$> (k, v) :: items) +:+ String "}" rest
               = String Str.dquote t) as [t ->].
  { destruct items; cbn [fmap list_fmap Str.join fst snd];
      rewrite ?append_assoc, encode_str_app; eauto. }
  by rewrite skip_ws_other.
Qed.
End members.

Lemma parse_value_encode (fuel : nat) (o : pyobj) (rest : string) :
  floats_ok o ∧ (width o ≤ fuel)%nat → Json.delimited rest = true →
  Json.parse_value fuel (Json.encode o +:+ rest) = Some (o, rest)
  ∧ Json.skip_ws (Json.encode o +:+ rest) = Json.encode o +:+ rest.
Proof.
  intros [Hfloats Hwidth] Hrest. destruct o as [v|items]; cbn [Json.encode].
  - destruct (parse_scalar_encode v rest Hfloats Hrest)
      as (Hparse & Hskip & c & t & Hstart & Hbrace).
    split; [|done]. rewrite Hstart in *. unfold Json.parse_value.
    by rewrite Hbrace, Hparse.
  - assert (∃ t, Json.encode_dict Json.encode_scalar items +:+ rest = String "{" t)
      as [t Hstart].
    { unfold Json.encode_dict. rewrite !append_assoc. by eexists. }
    split; [|by rewrite Hstart]. unfold Json.parse_value. rewrite Hstart.
    rewrite Ascii.eqb_refl, <-Hstart.
    rewrite (parse_object_encode Json.encode_scalar Json.parse_scalar float_ok);
      [done| |done|done].
    intros v rest' Hv Hrest'.
    destruct (parse_scalar_encode v rest' Hv Hrest') as (? & ? & _). done.
Qed.

Lemma length_join (sep : string) (l : list string) :
  Forall (λ x, (1 ≤ String.length x)%nat) l →
  (length l ≤ String.length (Str.join sep l))%nat.
Proof.
  induction 1 as [|x l Hx Hl IH]; [done|].
  destruct l as [|y l]; [simpl; lia|].
  change (Str.join sep (x :: y :: l)) with (x +:+ sep +:+ Str.join sep (y :: l)).
  rewrite !length_append. simpl in *. lia.
Qed.

Lemma length_join_elem (sep x : string) (l : list string) :
  x ∈ l → (String.length x ≤ String.length (Str.join sep l))%nat.
Proof.
  induction l as [|y l IH]; intros Hin; [inversion Hin|].
  destruct l as [|z l].
  - apply list_elem_of_singleton in Hin as ->. done.
  - change (Str.join sep (y :: z :: l)) with (y +:+ sep +:+ Str.join sep (z :: l)).
    rewrite !length_append. apply elem_of_cons in Hin as [->|Hin]; [lia|].
    specialize (IH Hin). lia.
Qed.

Lemma length_encode_dict {V} (enc : V → string) (items : list (string * V)) :
  (length items ≤ String.length (Json.encode_dict enc items))%nat
  ∧ ∀ kv, kv ∈ items →
      (String.length (enc kv.2) ≤ String.length (Json.encode_dict enc items))%nat.
Proof.
  unfold Json.encode_dict. rewrite !length_append. split.
  - etrans; [|apply Nat.le_add_l]. etrans; [|apply Nat.le_add_r].
    rewrite <-(length_fmap (λ kv, Json.encode_str kv.1 +:+ ": " +:+ enc kv.2)).
    apply length_join, Forall_fmap, Forall_true. intros kv. simpl.
    unfold Json.encode_str. simpl. lia.
  - intros kv Hin. etrans; [|apply Nat.le_add_l]. etrans; [|apply Nat.le_add_r].
    etrans; [|apply length_join_elem, list_elem_of_fmap_2, Hin].
    rewrite !length_append. lia.
Qed.

(** The payload is read back from its serialization. *)
Lemma loads_dumps (payload : list (string * pyobj)) :
  Forall (λ kv, floats_ok kv.2) payload →
  Json.loads (Json.dumps payload) = Some payload.
Proof.
  intros Hfloats. unfold Json.loads, Json.dumps.
  set (fuel := String.length (Json.encode_dict Json.encode payload)).
  destruct (length_encode_dict Json.encode payload) as [Hlen Hmembers].
  rewrite <-(append_nil_r (Json.encode_dict Json.encode payload)).
  rewrite (parse_object_encode Json.encode (Json.parse_value fuel)
             (λ o, floats_ok o ∧ (width o ≤ fuel)%nat)); [done| |done|].
  - intros o rest Ho Hrest. by apply parse_value_encode.
  - rewrite Forall_forall in Hfloats. apply Forall_forall. intros kv Hin.
    split; [by apply Hfloats|]. etrans; [|by apply Hmembers].
    destruct (kv.2) as [v|items]; simpl; [lia|].
    apply (length_encode_dict Json.encode_scalar items).
Qed.

(** ** One tick of a sensor *)

Lemma writable_same_dirs (w w' : World) (p : string) :
  dirs w' = dirs w → writable w p → open_for_writing p w' = (Ok tt, w').
Proof.
  unfold writable, open_for_writing, isdir. intros ->.
  repeat match goal with
         | |- context [if ?b then _ else _] => destruct b; try discriminate
         end; done.
Qed.

(** Up to the broadcast: the reader has been called once more and the row
    is at the end of the log file. *)
Lemma execute_appends (w : World) (self : nat) (s : Wiresense)
    (items : list (string * scalar)) (path : string) :
  configured w = true →
  sensors w !! self = Some s →
  exec_function s (calls s) = Dict items → items ≠ [] →
  csv_file_path s = Some path → writable w path →
  execute self w
  = (let payload_str :=
       Json.dumps [("key", Scalar (PyStr (name s))); ("data", Dict items)] in
     _broadcast payload_str ;; ret payload_str)
      (set_files
         (λ fs, <[path := default EmptyString (fs !! path)
                          +:+ Csv.writerow (PyInt (clock w) :: values items)]> fs)
         (set_sensors (λ l, alter with_call self l) w)).
Proof.
  intros Hconf Hself Hdata Hne Hpath Hwritable.
  unfold execute, bind at 1, get at 1. rewrite Hconf. cbn [negb].
  unfold bind at 1, call_exec_function, bind at 1, getattr at 1.
  rewrite Hself. cbn [mbind option_bind].
  unfold bind at 1, modify at 1, ret at 1. rewrite Hdata.
  assert (invalid_reading (Dict items) = false) as ->.
  { apply valid_reading_spec. eauto. }
  assert (sensors (set_sensors (λ l, alter with_call self l) w) !! self
          = Some (with_call s)) as Hself'.
  { cbn [sensors set_sensors]. by rewrite list_lookup_alter_eq, Hself. }
  unfold bind at 1, getattr at 1. rewrite Hself'. cbn [mbind option_bind name with_call].
  unfold bind at 1, time_time, get at 1.
  unfold bind at 1, getattr at 1. rewrite Hself'.
  cbn [mbind option_bind csv_file_path with_call]. rewrite Hpath.
  unfold bind at 1, append_file, bind at 1.
  rewrite (writable_same_dirs w _ path) by done.
  unfold modify at 1. reflexivity.
Qed.

Lemma same_but_sockets_fields (w w' : World) :
  same_but_sockets w w' →
  sensors w' = sensors w ∧ files w' = files w
  ∧ active_connections w' = active_connections w.
Proof. by intros ->. Qed.


(** C2, as the code has it: [_broadcast] does not isolate a failed send.
    When every send succeeds, every connected client is sent the message
    once.  When the send to a client fails, the loop ends there with that
    exception: the clients the set yielded before it have the message, the
    failing one and those behind it have nothing, and the set of
    connections is what it was, the failing client included. *)
Theorem broadcast_stops_at_failure (msg : string) (w : World) :
  NoDup (active_connections w) →
  ((∀ ws, ws ∈ active_connections w → healthy w ws) →
   ∃ w', _broadcast msg w = (Ok tt, w')
         ∧ active_connections w' = active_connections w
         ∧ ∀ ws, ws ∈ active_connections w → received w w' ws msg)
  ∧ (∀ pre ws post,
       active_connections w = pre ++ ws :: post →
       (∀ x, x ∈ pre → healthy w x) → ¬ healthy w ws →
       ∃ e w', _broadcast msg w = (Raise e, w')
               ∧ active_connections w' = active_connections w
               ∧ (∀ x, x ∈ pre → received w w' x msg)
               ∧ (∀ x, x ∈ ws :: post → sockets w' !! x = sockets w !! x)).
Proof.
  intros Hnodup. split.
  - intros Hhealthy.
    destruct (broadcast_all_healthy msg w Hnodup Hhealthy)
      as (w1 & Hsame & Hrecv & _ & Hok).
    eexists. split; [exact Hok|].
    apply same_but_sockets_fields in Hsame as (_ & _ & Hconns).
    split; [exact Hconns|]. intros ws Hws. exact (Hrecv ws Hws).
  - intros pre ws post Hsplit Hpre Hbad.
    destruct (broadcast_first_failure msg w pre post ws Hnodup Hsplit Hpre Hbad)
      as (e & w1 & Hsame & Hrecv & Hother & Hfail).
    exists e, w1. split; [done|].
    apply same_but_sockets_fields in Hsame as (_ & _ & Hconns).
    split; [done|]. split; [done|].
    intros x Hx. apply Hother. intros Hin.
    rewrite Hsplit in Hnodup. apply NoDup_app in Hnodup as (_ & Hdisj & _).
    by apply (Hdisj x).
Qed.



Lemma broadcast_stops_at_failure_witness :
  ∃ e w', _broadcast "tick" Examples.broken_then_open = (Raise e, w')
          ∧ active_connections w' = active_connections Examples.broken_then_open
          ∧ (∀ x, x ∈ [] → received Examples.broken_then_open w' x "tick")
          ∧ (∀ x, x ∈ [1; 0] →
               sockets w' !! x = sockets Examples.broken_then_open !! x).
Proof.
  refine (proj2 (broadcast_stops_at_failure "tick" Examples.broken_then_open _)
            [] 1 [0] _ _ _).
  - refine (bool_decide_unpack _ _). vm_compute. exact I.
  - reflexivity.
  - intros x Hx. inversion Hx.
  - intros (c & Hc & Hopen). vm_compute in Hc. injection Hc as <-. discriminate.
Defined.

(** C2 fails as stated: of two connected clients the set yields the one
    with the closing transport first.  One [execute] raises the error of
    that send, the other client is sent nothing, and the failing client is
    still in the set. *)
Lemma broadcast_isolation_counterexample :
  let r := execute 0 Examples.broken_then_open in
  r.1 = Raise ConnectionResetError
  ∧ sockets r.2 !! 0 = Some Examples.open_socket
  ∧ sent Examples.open_socket = []
  ∧ active_connections r.2 = [1; 0].
Proof. repeat split; reflexivity. Qed.

(** ** The order of a row *)

Lemma lookup_key_fresh (k k' : string) (v : scalar) (items : list (string * scalar)) :
  k' ≠ k → lookup_key k' ((k, v) :: items) = lookup_key k' items.
Proof.
  intros Hne. simpl. destruct (String.eqb k k') eqn:Heq; [|done].
  apply String.eqb_eq in Heq. congruence.
Qed.

(** Picking the values by the reading's own keys gives the reading's values. *)
Lemma row_by_own_keys (items : list (string * scalar)) :
  NoDup (keys items) → row_by_columns (keys items) items = values items.
Proof.
  unfold row_by_columns, keys, values.
  induction items as [|[k v] items IH]; [done|].
  rewrite !fmap_cons. cbn [fst snd]. intros [Hnotin Hnodup]%NoDup_cons.
  cbn [lookup_key]. rewrite String.eqb_refl. cbn [default from_option]. f_equal.
  rewrite <-(IH Hnodup). apply list_fmap_ext.
  intros i k' Hk'. f_equal. apply lookup_key_fresh.
  intros ->. apply Hnotin. by eapply list_elem_of_lookup_2.
Qed.




(** ** Configuration *)



(** ** Retrieval of a log over HTTP *)

Lemma contains_app (c : ascii) (s t : string) :
  Str.contains c (s +:+ t) = Str.contains c s || Str.contains c t.
Proof.
  induction s as [|a s IH]; [done|]. rewrite app_String. simpl.
  by destruct (Ascii.eqb a c).
Qed.

Lemma contains_replace_hit (c b : ascii) (rep s : string) :
  Str.contains c s = true →
  Str.contains b (Str.replace c (String b rep) s) = true.
Proof.
  induction s as [|a s IH]; simpl; [discriminate|].
  destruct (Ascii.eqb a c).
  - intros _. rewrite app_String. simpl. by rewrite Ascii.eqb_refl.
  - intros H. simpl. rewrite (IH H). by destruct (Ascii.eqb a b).
Qed.

Lemma contains_replace_keep (c d : ascii) (rep s : string) :
  d ≠ c → Str.contains d s = true → Str.contains d (Str.replace c rep s) = true.
Proof.
  intros Hne. induction s as [|a s IH]; simpl; [discriminate|].
  destruct (Ascii.eqb a d) eqn:Had.
  - apply Ascii.eqb_eq in Had as ->. intros _.
    destruct (Ascii.eqb d c) eqn:Hdc; [by apply Ascii.eqb_eq in Hdc|].
    simpl. by rewrite Ascii.eqb_refl.
  - intros H. destruct (Ascii.eqb a c).
    + rewrite contains_app, (IH H). apply orb_true_r.
    + simpl. by rewrite Had, (IH H).
Qed.

(** A raw line break leaves a backslash in the escaped path. *)
Lemma escaped_backslash (path : string) :
  Str.contains Str.CR path = true ∨ Str.contains Str.LF path = true →
  Str.contains Str.backslash (escaped path) = true.
Proof.
  unfold escaped. intros [HCR|HLF].
  - apply contains_replace_keep; [discriminate|].
    by apply (contains_replace_hit Str.CR Str.backslash "r").
  - apply (contains_replace_hit Str.LF Str.backslash "n").
    by apply contains_replace_keep.
Qed.

Lemma split_nonempty (c : ascii) (s : string) : Str.split c s ≠ [].
Proof.
  destruct s as [|a s]; simpl; [done|].
  destruct (Ascii.eqb a c); [done|]. by destruct (Str.split c s).
Qed.

Lemma join_split (c : ascii) (s : string) :
  Str.join (Str.str1 c) (Str.split c s) = s.
Proof.
  induction s as [|a s IH]; [done|]. simpl.
  pose proof (split_nonempty c s) as Hne.
  destruct (Ascii.eqb a c) eqn:Hac.
  - apply Ascii.eqb_eq in Hac as ->.
    destruct (Str.split c s) as [|p ps]; [done|].
    change (Str.join (Str.str1 c) (EmptyString :: p :: ps))
      with (String c (Str.join (Str.str1 c) (p :: ps))).
    by rewrite IH.
  - destruct (Str.split c s) as [|p ps]; [done|].
    rewrite <-IH. by destruct ps.
Qed.

Lemma sensor_of_path_split (path n : string) :
  sensor_of_path path = Some n → Str.split "/" (escaped path) = [n; "data.csv"].
Proof.
  unfold sensor_of_path.
  destruct (Str.split "/" (escaped path)) as [|a [|b [|c l]]]; try discriminate.
  destruct (String.eqb b "data.csv") eqn:Hb; [|discriminate].
  apply String.eqb_eq in Hb as ->. by intros [= ->].
Qed.

(** The sensor name of a path that had a raw line break has a backslash. *)
Lemma sensor_of_raw_path (path n : string) :
  Str.contains Str.CR path = true ∨ Str.contains Str.LF path = true →
  sensor_of_path path = Some n → Str.contains Str.backslash n = true.
Proof.
  intros Hraw Hroute. apply escaped_backslash in Hraw.
  apply sensor_of_path_split in Hroute.
  rewrite <-(join_split "/" (escaped path)), Hroute in Hraw.
  cbn [Str.join] in Hraw. rewrite contains_app in Hraw.
  by apply orb_true_iff in Hraw as [Hraw|Hraw].
Qed.

(** The handler on a path that is not of the form [<sensor-name>/data.csv]. *)
Lemma handler_invalid_path (w : World) (path : string) :
  sensor_of_path path = None →
  _handle_http_request path w
  = (Raise HTTPNotFound,
     set_records (λ r, r ++ [(INFO, "Invalid Path: '" +:+ escaped path +:+ "'")]) w).
Proof.
  unfold sensor_of_path, _handle_http_request. fold (escaped path).
  destruct (Str.split "/" (escaped path)) as [|a [|b [|c l]]]; try done.
  cbn [length Nat.eqb nth andb].
  destruct (String.eqb b "data.csv"); [discriminate|done].
Qed.

(** The handler on a path of that form, by what the registry holds under
    the name. *)
Lemma handler_lookup (w : World) (path n : string) :
  sensor_of_path path = Some n →
  _handle_http_request path w
  = match matching_paths (sensors w) n with
    | Ok [] =>
        (Raise HTTPNotFound, set_records (λ r, r ++ [(INFO, "Sensor not found!")]) w)
    | Ok (p :: _) =>
        if Str.is_empty p then (Ok None, w)
        else if isfile w p
        then (Ok (Some (FileResponse p [("Content-Type", "text/csv")])),
              set_records
                (λ r, r ++ [(INFO, "File of Sensor: '" +:+ n +:+ "' send! ('"
                                   +:+ p +:+ "')")]) w)
        else (Raise HTTPInternalServerError,
              set_records
                (λ r, r ++ [(ERROR, "File of Sensor: '" +:+ n
                                    +:+ "' does not exist! ('" +:+ p +:+ "')")]) w)
    | Raise e =>
        if is_IndexError e
        then (Raise HTTPNotFound,
              set_records (λ r, r ++ [(INFO, "Sensor not found!")]) w)
        else (Raise e, w)
    end.
Proof.
  intros Hroute. apply sensor_of_path_split in Hroute.
  unfold _handle_http_request. fold (escaped path). rewrite Hroute.
  cbn [length Nat.eqb nth andb]. rewrite String.eqb_refl.
  unfold bind at 1, try_except, bind at 1, get at 1.
  destruct (matching_paths (sensors w) n) as [[|p ps]|e]; cbn [is_IndexError].
  - reflexivity.
  - destruct (Str.is_empty p); [reflexivity|]. cbn [negb].
    unfold bind at 1, get at 1. by destruct (isfile w p).
  - by destruct (is_IndexError e).
Qed.

Lemma matching_paths_none (l : list Wiresense) (n : string) :
  (∀ s, s ∈ l → name s ≠ n) → matching_paths l n = Ok [].
Proof.
  induction l as [|a l IH]; intros Hfree; [done|]. simpl.
  destruct (String.eqb (name a) n) eqn:Ha.
  - apply String.eqb_eq in Ha. exfalso. by apply (Hfree a); [left|].
  - apply IH. intros s Hs. apply Hfree. by right.
Qed.

(** Under unique names the comprehension has the one path of the sensor,
    or fails on the attribute the sensor does not have. *)
Lemma matching_paths_unique (l : list Wiresense) (s : Wiresense) :
  NoDup (name <$> l) → s ∈ l →
  matching_paths l (name s)
  = match csv_file_path s with
    | Some p => Ok [p]
    | None => Raise (AttributeError "csv_file_path")
    end.
Proof.
  induction l as [|a l IH]; intros Hnodup Hin; [inversion Hin|].
  rewrite fmap_cons in Hnodup. apply NoDup_cons in Hnodup as [Hnotin Hnodup].
  simpl. apply elem_of_cons in Hin as [<-|Hin].
  - rewrite String.eqb_refl. destruct (csv_file_path s); [|done].
    rewrite matching_paths_none; [done|].
    intros s' Hs' Heq. apply Hnotin. rewrite <-Heq. by apply list_elem_of_fmap_2.
  - destruct (String.eqb (name a) (name s)) eqn:Ha; [|by apply IH].
    apply String.eqb_eq in Ha. exfalso. apply Hnotin. rewrite Ha.
    by apply list_elem_of_fmap_2.
Qed.

Lemma isfile_not_empty (w : World) (p : string) :
  isfile w p = true → Str.is_empty p = false.
Proof. unfold isfile. by destruct (Str.is_empty p). Qed.

Lemma isfile_content (w : World) (p : string) :
  isfile w p = true → ∃ content, files w !! p = Some content.
Proof.
  unfold isfile. intros [_ H]%andb_true_iff.
  apply bool_decide_eq_true in H as [content H]. eauto.
Qed.




(** ** The invariant of the reachable states *)

Ltac unfold_monad :=
  unfold bind, ret, raise, get, modify, try_except, getattr, call_exec_function,
    setattr_csv_file_path, makedirs, write_file, append_file, open_for_writing,
    time_time, log_info, log_error, send_str, site_start in *.

Ltac project_world :=
  cbn [fst snd sensors configured active_connections files dirs clock sockets
       listening busy records set_sensors set_configured set_active_connections
       set_files set_dirs set_sockets set_listening set_records] in *.

Ltac crunch :=
  repeat first [ progress project_world | progress unfold_monad | case_match ].

Lemma app_not_empty (s t : string) (c : ascii) : s +:+ String c t ≠ EmptyString.
Proof. by destruct s. Qed.

(** What [__init__] does to the state of the process, whichever way it
    ends. *)
Lemma init_state (w : World) (n : string) (f : nat → pyobj) (p : string) :
  let w' := (__init__ n f p w).2 in
  active_connections w' = active_connections w
  ∧ configured w' = configured w
  ∧ listening w' = listening w
  ∧ (sensors w' = sensors w
     ∨ name_free w n ∧ name_allowed n
       ∧ ∃ c csv, sensors w' = sensors w ++ [mkWiresense n f c p csv]
                  ∧ csv ≠ Some EmptyString).
Proof.
  cbn zeta.
  destruct (existsb (λ sensor, String.eqb (name sensor) n) (sensors w)) eqn:Hdup.
  { assert (__init__ n f p w = (Raise (DuplicateNameError n), w)) as ->.
    { unfold __init__, bind, get. cbn [fst]. by rewrite Hdup. }
    repeat split. by left. }
  destruct (existsb (λ ec, Str.contains ec n) excluded_chars) eqn:Hchars.
  { assert (__init__ n f p w = (Raise InvalidNameError, w)) as ->.
    { unfold __init__, bind, get. cbn [fst]. by rewrite Hdup, Hchars. }
    repeat split. by left. }
  apply existsb_name_free in Hdup. apply excluded_chars_allowed in Hchars.
  rewrite init_fresh by done. cbn zeta.
  assert (∀ c csv, csv ≠ Some EmptyString →
            sensors w ++ [mkWiresense n f c p csv] = sensors w
            ∨ name_free w n ∧ name_allowed n
              ∧ ∃ c' csv', sensors w ++ [mkWiresense n f c p csv]
                           = sensors w ++ [mkWiresense n f c' p csv']
                           ∧ csv' ≠ Some EmptyString) as Hright.
  { intros c csv Hcsv. right. eauto 6. }
  destruct (invalid_reading (f 0)); [by repeat split; try apply Hright|].
  destruct (OsPath.splitext p) as [base_name ext].
  assert (Some (base_name +:+ "_" +:+ pretty (clock w) +:+ ext) ≠ Some EmptyString).
  { intros [= H]. by apply app_not_empty in H. }
  crunch; simplify_eq; project_world; rewrite ?alter_app_last;
    cbn [with_csv_file_path name exec_function calls base_file_path];
    by repeat split; try apply Hright.
Qed.

Lemma broadcast_state (msg : string) (w w' : World) (r : result unit) :
  _broadcast msg w = (r, w') →
  sensors w' = sensors w ∧ active_connections w' = active_connections w
  ∧ configured w' = configured w ∧ listening w' = listening w.
Proof.
  unfold _broadcast, bind at 1, get at 1. unfold bind at 1.
  pose proof (for_each_send_frame msg (active_connections w) w) as Hframe.
  destruct (for_each _ _ w) as [[[]|e] w1]; cbn [snd] in Hframe;
    rewrite Hframe; unfold log_info, modify; by intros [= _ <-].
Qed.

(** What [execute] does to the state of the process, whichever way it
    ends. *)
Lemma execute_state (w : World) (self : nat) :
  let w' := (execute self w).2 in
  active_connections w' = active_connections w
  ∧ configured w' = configured w
  ∧ listening w' = listening w
  ∧ (sensors w' = sensors w ∨ sensors w' = alter with_call self (sensors w)).
Proof.
  cbn zeta. unfold execute. crunch; simplify_eq;
    repeat match goal with
           | H : _broadcast _ _ = _ |- _ =>
               apply broadcast_state in H as (? & ? & ? & ?)
           end;
    project_world; repeat split; try congruence; eauto.
Qed.

Lemma config_state (w : World) (options : gmap string Z) :
  let w' := (config options w).2 in
  sensors w' = sensors w
  ∧ active_connections w' = active_connections w
  ∧ ((configured w = true → listening w ≠ []) →
     configured w' = true → listening w' ≠ []).
Proof.
  cbn zeta. unfold config, _run_async_server. crunch; simplify_eq; project_world;
    repeat split; try done; intros; try congruence; by destruct (listening w).
Qed.

Lemma request_state (w : World) (path : string) :
  let w' := (_handle_http_request path w).2 in
  sensors w' = sensors w ∧ active_connections w' = active_connections w
  ∧ configured w' = configured w ∧ listening w' = listening w.
Proof.
  cbn zeta. unfold _handle_http_request. crunch; simplify_eq; project_world; done.
Qed.

Lemma connect_state (w : World) (ws : nat) :
  let w' := (_on_connect ws w).2 in
  sensors w' = sensors w ∧ configured w' = configured w
  ∧ listening w' = listening w
  ∧ (NoDup (active_connections w) → NoDup (active_connections w')).
Proof.
  cbn zeta. unfold _on_connect. crunch; simplify_eq; project_world;
    repeat split; try done.
  intros Hnodup. apply NoDup_app. split; [done|]. split; [|apply NoDup_singleton].
  intros x Hx [->|[]%elem_of_nil]%elem_of_cons. by apply bool_decide_eq_false in H.
Qed.

Lemma disconnect_state (w : World) (ws : nat) :
  let w' := (_on_disconnect ws w).2 in
  sensors w' = sensors w ∧ configured w' = configured w
  ∧ listening w' = listening w
  ∧ (NoDup (active_connections w) → NoDup (active_connections w')).
Proof.
  cbn zeta. unfold _on_disconnect. crunch; simplify_eq; project_world;
    repeat split; try done.
  apply NoDup_filter.
Qed.

Lemma message_state (w : World) (ws : nat) (message : string) :
  let w' := (_on_message ws message w).2 in
  sensors w' = sensors w ∧ active_connections w' = active_connections w
  ∧ configured w' = configured w ∧ listening w' = listening w.
Proof.
  cbn zeta. unfold _on_message. crunch; simplify_eq; project_world; done.
Qed.

Lemma registry_ok_same (w w' : World) :
  sensors w' = sensors w → registry_ok w → registry_ok w'.
Proof. unfold registry_ok. by intros ->. Qed.

Lemma registry_ok_append (w w' : World) (n : string) (f : nat → pyobj) (c : nat)
    (p : string) (csv : option string) :
  registry_ok w → name_free w n → name_allowed n → csv ≠ Some EmptyString →
  sensors w' = sensors w ++ [mkWiresense n f c p csv] → registry_ok w'.
Proof.
  unfold registry_ok. intros [Hnodup Hall] Hfree Hallowed Hcsv ->. split.
  - rewrite fmap_app. apply NoDup_app. split; [done|]. split; [|apply NoDup_singleton].
    intros x (s & -> & Hs)%list_elem_of_fmap [Heq|[]%elem_of_nil]%elem_of_cons.
    by apply (Hfree s).
  - apply Forall_app. split; [done|]. apply Forall_singleton. by split.
Qed.

Lemma fmap_alter_same {A B} (g : A → B) (h : A → A) (i : nat) (l : list A) :
  (∀ x, g (h x) = g x) → g <$> alter h i l = g <$> l.
Proof.
  intros Hgh. revert i. induction l as [|a l IH]; intros [|i]; try done.
  - cbn. by rewrite Hgh.
  - cbn. f_equal. apply IH.
Qed.

Lemma registry_ok_call (w w' : World) (self : nat) :
  registry_ok w → sensors w' = alter with_call self (sensors w) → registry_ok w'.
Proof.
  unfold registry_ok. intros [Hnodup Hall] ->. split.
  - by rewrite fmap_alter_same.
  - apply Forall_alter; [done|]. by intros [].
Qed.

(** X11: the registry keeps unique names without line breaks and non-empty
    log paths, the connections stay a set, and the configured flag is set
    only while the process listens on an endpoint: in every state that calls
    into the module and moves of the environment lead to. *)
Theorem reachable_invariant (w : World) : reachable w → invariant w.
Proof.
  induction 1 as [w (Hs & Hc & Ha & Hl)|w w' _ (Hreg & Hconns & Hflag) Hstep].
  - unfold invariant, registry_ok. rewrite Hs, Ha, Hc.
    split; [split; constructor|]. split; [constructor|discriminate].
  - unfold invariant. destruct Hstep.
    + destruct (init_state w n f p) as (Ha & Hc & Hl & Hsensors).
      rewrite Ha, Hc, Hl. split; [|done].
      destruct Hsensors as [Hsame|(Hfree & Hallowed & c & csv & Happ & Hcsv)].
      * by apply (registry_ok_same w).
      * by apply (registry_ok_append w _ n f c p csv).
    + destruct (config_state w options) as (Hs & Ha & Hbound).
      rewrite Ha. split; [by apply (registry_ok_same w)|]. split; [done|].
      by apply Hbound.
    + destruct (execute_state w self) as (Ha & Hc & Hl & Hsensors).
      rewrite Ha, Hc, Hl. split; [|done].
      destruct Hsensors as [Hsame|Hcall].
      * by apply (registry_ok_same w).
      * by apply (registry_ok_call w _ self).
    + destruct (request_state w path) as (Hs & Ha & Hc & Hl).
      rewrite Ha, Hc, Hl. split; [by apply (registry_ok_same w)|done].
    + destruct (connect_state w ws) as (Hs & Hc & Hl & Ha).
      rewrite Hc, Hl. split; [by apply (registry_ok_same w)|]. split; [by apply Ha|done].
    + destruct (disconnect_state w ws) as (Hs & Hc & Hl & Ha).
      rewrite Hc, Hl. split; [by apply (registry_ok_same w)|]. split; [by apply Ha|done].
    + destruct (message_state w ws message) as (Hs & Ha & Hc & Hl).
      rewrite Ha, Hc, Hl. split; [by apply (registry_ok_same w)|done].
    + done.
Qed.

(** ** The examples of the specification, run *)

(** Three ticks leave the header and three rows, in the order of the
    readings. *)
Example three_ticks_log :
  files Examples.three_ticks !! "data/temp_1700000000.csv"
  = Some ("timestamp,c" +:+ Csv.lineterminator
          +:+ "1700000000,21.5" +:+ Csv.lineterminator
          +:+ "1700000000,22.0" +:+ Csv.lineterminator
          +:+ "1700000000,22.1" +:+ Csv.lineterminator).
Proof. reflexivity. Qed.

(** A name with a line feed is refused. *)
Example register_bad_name :
  __init__ ("bad" +:+ String Str.LF "name") Examples.thermometer "data/bad.csv"
           Examples.fresh
  = (Raise InvalidNameError, Examples.fresh).
Proof. reflexivity. Qed.

(** An unknown sensor is answered 404, a sensor whose log is gone 500. *)
Example unknown_sensor :
  status (_handle_http_request "unknown/data.csv" Examples.registered).1 = Some 404%Z.
Proof. reflexivity. Qed.

Example missing_log :
  status (_handle_http_request "temp/data.csv" Examples.log_removed).1 = Some 500%Z.
Proof. reflexivity. Qed.

(** * Further properties of the module *)

(** ** The other ways a registration ends *)

(** X1: a name that is not in use but has a line feed or a carriage return
    is refused with the invalid-name error before anything is done: the
    instance is not appended, the reader is not called, the storage is not
    touched. *)
Theorem register_line_break_in_name (w : World) (n : string) (f : nat → pyobj)
    (p : string) :
  name_free w n →
  Str.contains Str.LF n = true ∨ Str.contains Str.CR n = true →
  __init__ n f p w = (Raise InvalidNameError, w).
Proof.
  intros Hfree Hbreak. unfold __init__, bind at 1, get at 1.
  rewrite (existsb_name_false w n Hfree).
  assert (existsb (λ ec, Str.contains ec n) excluded_chars = true) as ->; [|done].
  simpl. destruct Hbreak as [-> | ->]; [done|]. by rewrite orb_true_r.
Qed.

Lemma register_line_break_in_name_witness :
  __init__ ("bad" +:+ String Str.LF "name") Examples.thermometer "data/bad.csv"
           Examples.registered
  = (Raise InvalidNameError, Examples.registered).
Proof.
  apply register_line_break_in_name.
  - intros s Hin. change (s ∈ sensors Examples.registered) in Hin.
    vm_compute in Hin. apply list_elem_of_singleton in Hin as ->. discriminate.
  - left. reflexivity.
Defined.

Lemma rfind_from_absent (c : ascii) (s : string) (i last : Z) :
  Str.contains c s = false → Str.rfind_from c s i last = last.
Proof.
  revert i last. induction s as [|a s IH]; intros i last; [done|]. simpl.
  destruct (Ascii.eqb a c); [discriminate|]. apply IH.
Qed.

Lemma dirname_no_sep (p : string) :
  Str.contains OsPath.sep p = false → OsPath.dirname p = EmptyString.
Proof.
  intros H. unfold OsPath.dirname, Str.rfind. by rewrite rfind_from_absent.
Qed.

(** X2: a base path without a directory part cannot be registered.  The
    name passes its checks and the first reading is valid, but
    [os.makedirs] is called on the empty path and raises
    [FileNotFoundError].  By then the instance is in the registry: it has no
    log file, and its name is taken. *)
Theorem register_without_directory (w : World) (n : string) (f : nat → pyobj)
    (p : string) (items : list (string * scalar)) :
  name_free w n → name_allowed n →
  f 0 = Dict items → items ≠ [] →
  Str.contains "/" p = false →
  __init__ n f p w
  = (Raise (FileNotFoundError EmptyString),
     set_sensors (λ l, l ++ [mkWiresense n f 1 p None]) w)
  ∧ ∀ g q, __init__ n g q (__init__ n f p w).2
           = (Raise (DuplicateNameError n), (__init__ n f p w).2).
Proof.
  intros Hfree Hallowed Hitems Hne Hsep.
  assert (__init__ n f p w
          = (Raise (FileNotFoundError EmptyString),
             set_sensors (λ l, l ++ [mkWiresense n f 1 p None]) w)) as Hinit.
  { rewrite init_fresh by done. cbn zeta.
    assert (invalid_reading (f 0) = false) as ->.
    { apply valid_reading_spec. eauto. }
    destruct (OsPath.splitext p) as [base_name ext].
    unfold bind at 1, makedirs. by rewrite (dirname_no_sep p Hsep). }
  split; [done|]. intros g q. rewrite Hinit. cbn [snd].
  unfold __init__, bind at 1, get at 1. cbn [sensors set_sensors fst].
  assert (existsb (λ sensor, String.eqb (name sensor) n)
            (sensors w ++ [mkWiresense n f 1 p None]) = true) as ->;
    [|reflexivity].
  apply existsb_name_true. exists (mkWiresense n f 1 p None).
  split; [set_solver|done].
Qed.

Lemma register_without_directory_witness :
  __init__ "temp" Examples.thermometer "temp.csv" Examples.fresh
  = (Raise (FileNotFoundError EmptyString),
     set_sensors (λ l, l ++ [mkWiresense "temp" Examples.thermometer 1 "temp.csv" None])
       Examples.fresh).
Proof.
  refine (proj1 (register_without_directory Examples.fresh "temp"
                   Examples.thermometer "temp.csv" [("c", PyFloat "21.5")]
                   _ _ _ _ _)).
  - intros s Hin. vm_compute in Hin. inversion Hin.
  - split; reflexivity.
  - reflexivity.
  - discriminate.
  - reflexivity.
Defined.

(** ** Where the log file of a new sensor lies *)

Lemma rfind_from_present (c : ascii) (s : string) (i last : Z) :
  Str.contains c s = true →
  (i ≤ Str.rfind_from c s i last < i + Z.of_nat (String.length s))%Z.
Proof.
  revert i last. induction s as [|a s IH]; intros i last; [discriminate|].
  cbn [Str.contains Str.rfind_from String.length].
  destruct (Str.contains c s) eqn:Hs.
  - intros _. specialize (IH (i + 1)%Z (if Ascii.eqb a c then i else last) eq_refl). lia.
  - rewrite rfind_from_absent by done. destruct (Ascii.eqb a c); [|discriminate].
    intros _. lia.
Qed.

Lemma rfind_from_range (c : ascii) (s : string) (i last : Z) :
  Str.rfind_from c s i last = last
  ∨ (i ≤ Str.rfind_from c s i last < i + Z.of_nat (String.length s))%Z.
Proof.
  destruct (Str.contains c s) eqn:Hs.
  - right. by apply rfind_from_present.
  - left. by apply rfind_from_absent.
Qed.

Lemma rfind_from_app_absent (c : ascii) (s t : string) (i last : Z) :
  Str.contains c t = false →
  Str.rfind_from c (s +:+ t) i last = Str.rfind_from c s i last.
Proof.
  intros Ht. revert i last. induction s as [|a s IH]; intros i last.
  - by apply rfind_from_absent.
  - rewrite app_String. cbn [Str.rfind_from]. apply IH.
Qed.

(** Behind the last occurrence there is none. *)
Lemma rfind_from_drop (c : ascii) (n : nat) :
  ∀ (s : string) (i last : Z),
    Str.contains c (Str.drop n s) = true →
    (i + Z.of_nat n ≤ Str.rfind_from c s i last)%Z.
Proof.
  induction n as [|n IH]; intros s i last Hin.
  - destruct s; [discriminate|]. cbn [Str.drop] in Hin.
    pose proof (rfind_from_present c _ i last Hin). lia.
  - destruct s as [|a s]; [discriminate|]. cbn [Str.drop Str.rfind_from] in *.
    specialize (IH s (i + 1)%Z (if Ascii.eqb a c then i else last) Hin). lia.
Qed.

Lemma take_app_le (n : nat) (s t : string) :
  (n ≤ String.length s)%nat → Str.take n (s +:+ t) = Str.take n s.
Proof.
  revert s. induction n as [|n IH]; intros s Hn.
  - by destruct s, t.
  - destruct s as [|a s]; [simpl in Hn; lia|].
    rewrite app_String. cbn [Str.take]. rewrite IH; [done|]. simpl in Hn. lia.
Qed.

(** What follows the last separator does not count for the directory. *)
Lemma dirname_app (s t : string) :
  Str.contains OsPath.sep t = false → OsPath.dirname (s +:+ t) = OsPath.dirname s.
Proof.
  intros Ht. unfold OsPath.dirname, Str.rfind.
  rewrite rfind_from_app_absent by done.
  rewrite take_app_le; [done|].
  destruct (rfind_from_range OsPath.sep s 0 (-1)) as [Heq|Hrange];
    [rewrite Heq|]; lia.
Qed.

Lemma splitext_no_sep (p : string) :
  Str.contains OsPath.sep (OsPath.splitext p).2 = false.
Proof.
  unfold OsPath.splitext.
  destruct (_ <? _)%Z eqn:Hlt; [|done]. apply Z.ltb_lt in Hlt.
  destruct (OsPath.skip_leading_dots _ _); [|done]. cbn [snd].
  apply not_true_is_false. intros Hin.
  pose proof (rfind_from_drop OsPath.sep _ p 0 (-1) Hin) as Hle.
  unfold Str.rfind in *.
  destruct (rfind_from_range OsPath.extsep p 0 (-1)) as [Heq|Hrange]; lia.
Qed.

Lemma pretty_Z_no_sep (n : Z) : Str.contains OsPath.sep (pretty n) = false.
Proof.
  unfold pretty, pretty_Z. destruct n as [|q|q]; [done| |].
  - destruct (pretty_N_digits (Npos q)) as (c & d & Hq & Hdigits & _).
    change (pretty q) with (pretty (Npos q)). rewrite Hq. by apply digits_contain.
  - destruct (pretty_N_digits (Npos q)) as (c & d & Hq & Hdigits & _).
    change (pretty q) with (pretty (Npos q)). rewrite Hq.
    change (Str.contains OsPath.sep ("-" +:+ String c d))
      with (Str.contains OsPath.sep (String c d)).
    by apply digits_contain.
Qed.

(** The log path of [__init__] has the directory of the base path. *)
Lemma dirname_log_path (p : string) (timestamp : Z) :
  OsPath.dirname ((OsPath.splitext p).1 +:+ "_" +:+ pretty timestamp
                  +:+ (OsPath.splitext p).2)
  = OsPath.dirname p.
Proof.
  rewrite <-(splitext_app p) at 3.
  rewrite !dirname_app; [done|apply splitext_no_sep|].
  change ("_" +:+ ?x) with (String "_" x). cbn [Str.contains].
  change (Ascii.eqb "_" OsPath.sep) with false. cbn iota.
  by rewrite contains_app, pretty_Z_no_sep, splitext_no_sep.
Qed.

Lemma length_take (n : nat) (s : string) :
  (String.length (Str.take n s) ≤ String.length s)%nat.
Proof.
  revert s. induction n as [|n IH]; intros [|a s]; simpl; try lia.
  specialize (IH s). lia.
Qed.

Lemma length_rstrip (c : ascii) (s : string) :
  (String.length (Str.rstrip c s) ≤ String.length s)%nat.
Proof.
  induction s as [|a s IH]; [done|]. cbn [Str.rstrip].
  destruct (Str.rstrip c s); [destruct (Ascii.eqb a c)|]; simpl in *; lia.
Qed.

Lemma length_dirname (p : string) :
  (String.length (OsPath.dirname p) ≤ String.length p)%nat.
Proof.
  unfold OsPath.dirname. destruct (_ && _).
  - etrans; [apply length_rstrip|apply length_take].
  - apply length_take.
Qed.

Lemma with_parents_length (fuel : nat) (d x : string) :
  x ∈ with_parents fuel d → (String.length x ≤ String.length d)%nat.
Proof.
  revert d. induction fuel as [|fuel IH]; intros d Hin; [inversion Hin|].
  cbn [with_parents] in Hin. destruct (Str.is_empty d); [inversion Hin|].
  apply elem_of_cons in Hin as [->|Hin]; [done|].
  etrans; [by apply IH|apply length_dirname].
Qed.

Lemma with_parents_self (d : string) :
  d ≠ EmptyString → d ∈ with_parents (String.length d) d.
Proof. destruct d as [|a d]; [done|]. intros _. simpl. left. Qed.

Lemma is_empty_false (s : string) : s ≠ EmptyString → Str.is_empty s = false.
Proof. by destruct s. Qed.

(** The log path is longer than its directory and than the root. *)
Lemma length_log_path (p : string) (timestamp : Z) :
  (String.length (OsPath.dirname p) + 2
   ≤ String.length ((OsPath.splitext p).1 +:+ "_" +:+ pretty timestamp
                    +:+ (OsPath.splitext p).2))%nat.
Proof.
  rewrite <-(dirname_log_path p timestamp).
  rewrite <-(append_nil_r (OsPath.splitext p).1) at 1.
  rewrite !dirname_app; [|done|].
  - pose proof (length_dirname (OsPath.splitext p).1).
    destruct (pretty_Z_start timestamp) as (c & d & -> & _).
    rewrite !length_append. simpl. lia.
  - change ("_" +:+ ?x) with (String "_" x). cbn [Str.contains].
    change (Ascii.eqb "_" OsPath.sep) with false. cbn iota.
    by rewrite contains_app, pretty_Z_no_sep, splitext_no_sep.
Qed.



(** What a registration that returns has done. *)
Lemma init_returns (w w' : World) (n : string) (f : nat → pyobj) (p : string)
    (self : nat) :
  __init__ n f p w = (Ok self, w') →
  ∃ items,
    f 0 = Dict items
    ∧ self = length (sensors w)
    ∧ sensors w'
      = sensors w ++ [mkWiresense n f 1 p
                        (Some ((OsPath.splitext p).1 +:+ "_" +:+ pretty (clock w)
                               +:+ (OsPath.splitext p).2))]
    ∧ files w'
      = <[(OsPath.splitext p).1 +:+ "_" +:+ pretty (clock w) +:+ (OsPath.splitext p).2
          := Csv.writerow (PyStr "timestamp" :: (PyStr <$> keys items))]> (files w)
    ∧ clock w' = clock w.
Proof.
  intros Hinit. destruct (init_ok_fresh _ _ _ _ _ _ Hinit) as [Hfree Hallowed].
  rewrite init_fresh in Hinit by done. cbn zeta in Hinit.
  destruct (invalid_reading (f 0)) eqn:Hvalid; [discriminate|].
  apply valid_reading_spec in Hvalid as (items & Hitems & _).
  exists items. split; [done|]. rewrite Hitems in Hinit.
  destruct (OsPath.splitext p) as [base_name ext]. cbn [fst snd].
  crunch; simplify_eq; project_world. rewrite alter_app_last. done.
Qed.

(** X4: the log path is made of the base path and the clock's reading
    alone.  Two registrations with the same base path while the clock reads
    the same give two sensors one log file: the second registration opens it
    for writing, and what the first had written is replaced by the header of
    the second. *)
Theorem register_same_path_same_second (w w1 w2 : World) (n1 n2 : string)
    (f1 f2 : nat → pyobj) (p : string) (i1 i2 : nat) :
  __init__ n1 f1 p w = (Ok i1, w1) →
  __init__ n2 f2 p w1 = (Ok i2, w2) →
  ∃ path items,
    i1 ≠ i2
    ∧ sensors w2 !! i1 ≫= csv_file_path = Some path
    ∧ sensors w2 !! i2 ≫= csv_file_path = Some path
    ∧ f2 0 = Dict items
    ∧ files w2 !! path
      = Some (Csv.writerow (PyStr "timestamp" :: (PyStr <$> keys items))).
Proof.
  intros (items1 & _ & -> & Hs1 & _ & Hclock)%init_returns
         (items2 & Hitems2 & -> & Hs2 & Hfiles2 & _)%init_returns.
  rewrite Hclock in Hs2, Hfiles2.
  eexists _, items2. split; [rewrite Hs1, length_app; simpl; lia|].
  split; [|split; [|split; [done|]]].
  - rewrite Hs2, Hs1. rewrite lookup_app_l by (rewrite length_app; simpl; lia).
    by rewrite lookup_app_last.
  - by rewrite Hs2, lookup_app_last.
  - rewrite Hfiles2. apply lookup_insert_eq.
Qed.

Lemma register_same_path_same_second_witness :
  let w2 := (__init__ "ab" Examples.swapping "data/temp.csv" Examples.registered).2 in
  ∃ path items,
    0 ≠ 1
    ∧ sensors w2 !! 0 ≫= csv_file_path = Some path
    ∧ sensors w2 !! 1 ≫= csv_file_path = Some path
    ∧ Examples.swapping 0 = Dict items
    ∧ files w2 !! path
      = Some (Csv.writerow (PyStr "timestamp" :: (PyStr <$> keys items))).
Proof.
  apply (register_same_path_same_second Examples.fresh Examples.registered _
           "temp" "ab" Examples.thermometer Examples.swapping "data/temp.csv" 0 1);
    vm_compute; reflexivity.
Defined.

(** ** The other ways a tick ends *)

(** X5: a tick whose reading is the empty mapping or no mapping raises the
    invalid-reading error.  The reader has been called, and that is all: no
    row is written and nothing is sent. *)
Theorem execute_invalid_reading (w : World) (self : nat) (s : Wiresense) :
  configured w = true →
  sensors w !! self = Some s →
  empty_or_not_mapping (exec_function s (calls s)) →
  execute self w
  = (Raise InvalidReadingError, set_sensors (λ l, alter with_call self l) w).
Proof.
  intros Hconf Hself Hbad. apply invalid_reading_spec in Hbad.
  unfold execute, bind at 1, get at 1. rewrite Hconf. cbn [negb].
  unfold bind at 1, call_exec_function, bind at 1, getattr at 1.
  rewrite Hself. cbn [mbind option_bind].
  unfold bind at 1, modify at 1, ret at 1. by rewrite Hbad.
Qed.

(** X6: a tick of an instance whose registration did not get as far as the
    log file, which the registry still holds, raises [AttributeError] for
    [csv_file_path] although the reading is valid.  The reader has been
    called; no file is written and nothing is sent. *)
Theorem execute_without_log_file (w : World) (self : nat) (s : Wiresense)
    (items : list (string * scalar)) :
  configured w = true →
  sensors w !! self = Some s →
  exec_function s (calls s) = Dict items → items ≠ [] →
  csv_file_path s = None →
  execute self w
  = (Raise (AttributeError "csv_file_path"),
     set_sensors (λ l, alter with_call self l) w).
Proof.
  intros Hconf Hself Hdata Hne Hpath.
  unfold execute, bind at 1, get at 1. rewrite Hconf. cbn [negb].
  unfold bind at 1, call_exec_function, bind at 1, getattr at 1.
  rewrite Hself. cbn [mbind option_bind].
  unfold bind at 1, modify at 1, ret at 1. rewrite Hdata.
  assert (invalid_reading (Dict items) = false) as ->.
  { apply valid_reading_spec. eauto. }
  assert (sensors (set_sensors (λ l, alter with_call self l) w) !! self
          = Some (with_call s)) as Hself'.
  { cbn [sensors set_sensors]. by rewrite list_lookup_alter_eq, Hself. }
  unfold bind at 1, getattr at 1. rewrite Hself'. cbn [mbind option_bind name with_call].
  unfold bind at 1, time_time, get at 1.
  unfold bind at 1, getattr at 1. rewrite Hself'.
  cbn [mbind option_bind csv_file_path with_call]. by rewrite Hpath.
Qed.

Lemma execute_invalid_reading_witness :
  execute 0 Examples.faded
  = (Raise InvalidReadingError,
     set_sensors (λ l, alter with_call 0 l) Examples.faded).
Proof.
  apply (execute_invalid_reading Examples.faded 0
           (mkWiresense "temp" Examples.fading 1 "data/temp.csv"
                        (Some "data/temp_1700000000.csv"))).
  - reflexivity.
  - reflexivity.
  - left. reflexivity.
Defined.

Lemma execute_without_log_file_witness :
  execute 0 Examples.half_registered
  = (Raise (AttributeError "csv_file_path"),
     set_sensors (λ l, alter with_call 0 l) Examples.half_registered).
Proof.
  apply (execute_without_log_file Examples.half_registered 0
           (mkWiresense "temp" Examples.late 1 "data/temp.csv" None)
           [("c", PyFloat "21.5")]).
  - reflexivity.
  - reflexivity.
  - reflexivity.
  - discriminate.
  - reflexivity.
Defined.

Lemma broadcast_files (msg : string) (w w' : World) (r : result unit) :
  _broadcast msg w = (r, w') → files w' = files w ∧ dirs w' = dirs w.
Proof.
  unfold _broadcast, bind at 1, get at 1. unfold bind at 1.
  pose proof (for_each_send_frame msg (active_connections w) w) as Hframe.
  destruct (for_each _ _ w) as [[[]|e] w1]; cbn [snd] in Hframe;
    rewrite Hframe; unfold log_info, modify; by intros [= _ <-].
Qed.

(** The storage after a tick: as before, or with one file longer by a row. *)
Lemma execute_files (w : World) (self : nat) :
  files (execute self w).2 = files w
  ∨ ∃ path row,
      files (execute self w).2
      = <[path := default EmptyString (files w !! path) +:+ row]> (files w).
Proof.
  unfold execute. crunch; simplify_eq;
    repeat match goal with
           | H : _broadcast _ _ = _ |- _ => apply broadcast_files in H as [? ?]
           end;
    project_world; try (by left); right; eexists _, _; eassumption.
Qed.

(** X7: a tick never shortens or removes a file.  Whichever way [execute]
    ends, every file is still there afterwards and begins with what it held
    before: a log only ever grows at its end. *)
Theorem execute_append_only (w : World) (self : nat) (p content : string) :
  files w !! p = Some content →
  ∃ more, files (execute self w).2 !! p = Some (content +:+ more).
Proof.
  intros Hp. destruct (execute_files w self) as [->|(path & row & ->)].
  - exists EmptyString. by rewrite append_nil_r.
  - destruct (decide (path = p)) as [->|Hne].
    + exists row. by rewrite lookup_insert_eq, Hp.
    + exists EmptyString. by rewrite lookup_insert_ne, append_nil_r.
Qed.

Lemma execute_append_only_witness :
  ∃ more,
    files (execute 0 Examples.serving).2 !! "data/temp_1700000000.csv"
    = Some (("timestamp,c" +:+ Csv.lineterminator) +:+ more).
Proof. apply execute_append_only. reflexivity. Defined.

(** ** What no step undoes *)

Lemma step_sensors (w w' : World) :
  step w w' →
  sensors w' = sensors w
  ∨ (∃ s, sensors w' = sensors w ++ [s])
  ∨ (∃ self, sensors w' = alter with_call self (sensors w)).
Proof.
  intros [n f p|options|self|path|ws|ws|ws message|fs ds t ss b].
  - destruct (init_state w n f p) as (_ & _ & _ & [?|(_ & _ & c & csv & ? & _)]);
      [by left|right; left; eauto].
  - destruct (config_state w options) as (? & _). by left.
  - destruct (execute_state w self) as (_ & _ & _ & [?|?]); [by left|right; right; eauto].
  - destruct (request_state w path) as (? & _). by left.
  - destruct (connect_state w ws) as (? & _). by left.
  - destruct (disconnect_state w ws) as (? & _). by left.
  - destruct (message_state w ws message) as (? & _). by left.
  - by left.
Qed.



Lemma config_server (w : World) (options : gmap string Z) :
  let w' := (config options w).2 in
  configured w' = configured w ∧ listening w' = listening w
  ∨ configured w = false ∧ configured w' = true
    ∧ ∃ e, listening w' = listening w ++ [e].
Proof.
  cbn zeta. unfold config, _run_async_server. crunch; simplify_eq; project_world;
    first [by left
          | right; split; [by apply negb_true_iff|]; split; [done|by eexists]].
Qed.

(** A step leaves the flag and the endpoints alone, or it is the one call of
    [config] that binds an endpoint and sets the flag. *)
Lemma step_server (w w' : World) :
  step w w' →
  configured w' = configured w ∧ listening w' = listening w
  ∨ configured w = false ∧ configured w' = true
    ∧ ∃ e, listening w' = listening w ++ [e].
Proof.
  intros [n f p|options|self|path|ws|ws|ws message|fs ds t ss b].
  - destruct (init_state w n f p) as (_ & ? & ? & _). by left.
  - apply config_server.
  - destruct (execute_state w self) as (_ & ? & ? & _). by left.
  - destruct (request_state w path) as (_ & _ & ? & ?). by left.
  - destruct (connect_state w ws) as (_ & ? & ? & _). by left.
  - destruct (disconnect_state w ws) as (_ & ? & ? & _). by left.
  - destruct (message_state w ws message) as (_ & _ & ? & ?). by left.
  - by left.
Qed.

(** X9: the process listens on one endpoint exactly when it is configured.
    In every reachable state an unconfigured process has bound nothing and a
    configured one has bound one endpoint, however often [config] has been
    called and whether or not earlier binds failed. *)
Theorem one_endpoint_when_configured (w : World) :
  reachable w →
  (configured w = false → listening w = [])
  ∧ (configured w = true → length (listening w) = 1).
Proof.
  induction 1 as [w (_ & Hc & _ & Hl)|w w' _ [IHoff IHon] Hstep].
  - rewrite Hc, Hl. split; [done|discriminate].
  - destruct (step_server w w' Hstep) as [[Hc Hl]|(Hoff & Hon & e & Hl)].
    + by rewrite Hc, Hl.
    + rewrite Hon, Hl, (IHoff Hoff). split; [discriminate|done].
Qed.

Lemma one_endpoint_when_configured_witness :
  (configured Examples.serving = false → listening Examples.serving = [])
  ∧ (configured Examples.serving = true → length (listening Examples.serving) = 1).
Proof.
  apply one_endpoint_when_configured.
  eapply reachable_step; [|apply (step_config _ ∅)].
  eapply reachable_step;
    [|apply (step_init _ "temp" Examples.thermometer "data/temp.csv")].
  apply reachable_started. repeat split.
Defined.

(** X10: the configured flag is never cleared and the endpoint never given
    up.  From a configured state on, whatever is called and whatever the
    environment does, the process stays configured and listens on the same
    endpoints: no later call binds another one. *)
Theorem configured_for_good (w w' : World) :
  rtc step w w' → configured w = true →
  configured w' = true ∧ listening w' = listening w.
Proof.
  induction 1 as [w|w w1 w' Hstep _ IH]; [done|]. intros Hon.
  destruct (step_server w w1 Hstep) as [[Hc Hl]|(Hoff & _)]; [|congruence].
  rewrite <-Hl. apply IH. congruence.
Qed.

Lemma configured_for_good_witness :
  configured (config ∅ (execute 0 Examples.serving).2).2 = true
  ∧ listening (config ∅ (execute 0 Examples.serving).2).2
    = listening Examples.serving.
Proof.
  apply configured_for_good; [|reflexivity].
  eapply rtc_l; [apply (step_execute _ 0)|].
  eapply rtc_l; [apply (step_config _ ∅)|].
  apply rtc_refl.
Defined.

Lemma reachable_invariant_witness : invariant Examples.serving.
Proof.
  apply reachable_invariant.
  eapply reachable_step; [|apply (step_config _ ∅)].
  eapply reachable_step;
    [|apply (step_init _ "temp" Examples.thermometer "data/temp.csv")].
  apply reachable_started. repeat split.
Defined.

(** ** The set of connections *)

Lemma filter_ne_app (ws : nat) (l : list nat) :
  ws ∉ l → filter (λ x, x ≠ ws) (l ++ [ws]) = l.
Proof.
  induction l as [|a l IH]; intros Hnotin.
  - rewrite app_nil_l, filter_cons_False; [done|]. intros H. by apply H.
  - apply not_elem_of_cons in Hnotin as [Hne Hnotin].
    rewrite <-app_comm_cons, filter_cons_True by done. by rewrite IH.
Qed.

Lemma disconnect_member (w : World) (ws : nat) :
  ws ∈ active_connections w →
  _on_disconnect ws w
  = (Ok tt,
     set_records (λ r, r ++ [(INFO, "WebSocket Client connection closed")])
       (set_active_connections (filter (λ x, x ≠ ws)) w)).
Proof.
  intros Hin. unfold _on_disconnect, bind at 1, get at 1. unfold bind at 1.
  by rewrite bool_decide_eq_true_2.
Qed.

(** X12: connecting and disconnecting are inverse on the set.  A new
    connection is in the set after [_on_connect]; connecting it once more
    does not put it there twice; one [_on_disconnect] then returns and leaves
    the set as it was before the connection came. *)
Theorem connect_disconnect (w : World) (ws : nat) :
  ws ∉ active_connections w →
  let w1 := (_on_connect ws w).2 in
  let w2 := (_on_connect ws w1).2 in
  ws ∈ active_connections w1
  ∧ active_connections w2 = active_connections w1
  ∧ (_on_disconnect ws w2).1 = Ok tt
  ∧ active_connections (_on_disconnect ws w2).2 = active_connections w.
Proof.
  intros Hnotin w1 w2.
  assert (active_connections w1 = active_connections w ++ [ws]) as H1.
  { subst w1. unfold _on_connect, log_info, bind, modify. project_world.
    cbv beta. by rewrite bool_decide_eq_false_2. }
  assert (ws ∈ active_connections w1) as Hin by (rewrite H1; set_solver).
  assert (active_connections w2 = active_connections w1) as H2.
  { subst w2. unfold _on_connect, log_info, bind, modify. project_world.
    cbv beta. by rewrite bool_decide_eq_true_2. }
  split; [done|]. split; [done|]. clearbody w1 w2.
  rewrite disconnect_member by (by rewrite H2). cbn [fst snd].
  split; [done|]. project_world. rewrite H2, H1. by apply filter_ne_app.
Qed.

Lemma connect_disconnect_witness :
  let w1 := (_on_connect 7 Examples.two_clients).2 in
  let w2 := (_on_connect 7 w1).2 in
  7 ∈ active_connections w1
  ∧ active_connections w2 = active_connections w1
  ∧ (_on_disconnect 7 w2).1 = Ok tt
  ∧ active_connections (_on_disconnect 7 w2).2
    = active_connections Examples.two_clients.
Proof.
  apply connect_disconnect. change (7 ∉ [0; 1]). intros Hin.
  apply elem_of_cons in Hin as [Heq|Hin]; [discriminate|].
  apply elem_of_cons in Hin as [Heq|Hin]; [discriminate|]. inversion Hin.
Defined.

(** X13: [_on_disconnect] cannot be repeated.  Whether or not the first
    call found the connection in the set, a second call for the same
    connection raises [KeyError] and changes nothing, not even the log. *)
Theorem disconnect_twice (w : World) (ws : nat) :
  let w1 := (_on_disconnect ws w).2 in
  _on_disconnect ws w1 = (Raise KeyError, w1).
Proof.
  cbn zeta.
  assert (ws ∉ active_connections (_on_disconnect ws w).2) as Hnotin.
  { unfold _on_disconnect, bind at 1, get at 1. unfold bind at 1.
    destruct (bool_decide (ws ∈ active_connections w)) eqn:Hin.
    - unfold log_info, modify. project_world.
      intros [Hne _]%list_elem_of_filter. done.
    - unfold raise. cbn [snd]. by apply bool_decide_eq_false in Hin. }
  unfold _on_disconnect at 1, bind at 1, get at 1. unfold bind at 1.
  by rewrite bool_decide_eq_false_2.
Qed.

(** ** Broadcasts one after the other *)

(** X14: frames arrive in the order of the broadcasts.  With every
    connection healthy, two broadcasts in a row both return, and each
    connection has been sent the first message and then the second, behind
    what it had been sent before. *)
Theorem broadcast_in_order (msg1 msg2 : string) (w : World) :
  NoDup (active_connections w) →
  (∀ ws, ws ∈ active_connections w → healthy w ws) →
  ∃ w1 w2,
    _broadcast msg1 w = (Ok tt, w1)
    ∧ _broadcast msg2 w1 = (Ok tt, w2)
    ∧ ∀ ws c, ws ∈ active_connections w → sockets w !! ws = Some c →
        sockets w2 !! ws = Some (mkWebSocket (sent c ++ [msg1; msg2]) false).
Proof.
  intros Hnodup Hhealthy.
  destruct (broadcast_all_healthy msg1 w Hnodup Hhealthy)
    as (w1 & Hsame1 & Hrecv1 & _ & Hrun1).
  apply same_but_sockets_fields in Hsame1 as (_ & _ & Hconns1).
  set (w1' := set_records (λ r, r ++ [(INFO, "Broadcast message send!")]) w1) in *.
  assert (active_connections w1' = active_connections w) as Hconns1' by done.
  destruct (broadcast_all_healthy msg2 w1') as (w2 & _ & Hrecv2 & _ & Hrun2).
  { by rewrite Hconns1'. }
  { intros ws Hws. rewrite Hconns1' in Hws.
    destruct (Hrecv1 ws Hws) as (c & _ & Hc). by eexists. }
  eexists _, _. split; [exact Hrun1|]. split; [exact Hrun2|].
  intros ws c Hws Hc.
  destruct (Hrecv1 ws Hws) as (c1 & Hc1 & Hc1').
  destruct (Hrecv2 ws) as (c2 & Hc2 & Hc2'); [by rewrite Hconns1'|].
  change (sockets w1' !! ws) with (sockets w1 !! ws) in Hc2.
  rewrite Hc in Hc1. injection Hc1 as <-.
  rewrite Hc1' in Hc2. injection Hc2 as <-.
  cbn [sockets set_records]. rewrite Hc2'. cbn [sent]. by rewrite <-app_assoc.
Qed.

Lemma broadcast_in_order_witness :
  ∃ w1 w2,
    _broadcast "one" Examples.two_clients = (Ok tt, w1)
    ∧ _broadcast "two" w1 = (Ok tt, w2)
    ∧ ∀ ws c, ws ∈ active_connections Examples.two_clients →
        sockets Examples.two_clients !! ws = Some c →
        sockets w2 !! ws = Some (mkWebSocket (sent c ++ ["one"; "two"]) false).
Proof.
  apply broadcast_in_order.
  - refine (bool_decide_unpack _ _). vm_compute. exact I.
  - intros ws Hws. exists Examples.open_socket.
    change (ws ∈ [0; 1]) in Hws.
    apply elem_of_cons in Hws as [->|Hws]; [split; reflexivity|].
    apply elem_of_cons in Hws as [->|Hws]; [split; reflexivity|].
    inversion Hws.
Defined.

(** X15: a connection whose send fails blocks every broadcast until it is
    disconnected.  With one such connection in the set the broadcast raises;
    after [_on_disconnect] for it, the same broadcast returns and every
    other connection is sent the message. *)
Theorem disconnect_unblocks_broadcast (msg : string) (w : World) (ws : nat) :
  NoDup (active_connections w) →
  ws ∈ active_connections w → ¬ healthy w ws →
  (∀ x, x ∈ active_connections w → x ≠ ws → healthy w x) →
  (∃ e w', _broadcast msg w = (Raise e, w'))
  ∧ ∃ w2, _broadcast msg (_on_disconnect ws w).2 = (Ok tt, w2)
          ∧ (ws ∉ active_connections w2)
          ∧ ∀ x, x ∈ active_connections w → x ≠ ws → received w w2 x msg.
Proof.
  intros Hnodup Hin Hbad Hothers. split.
  - destruct (first_unhealthy w (active_connections w) ws Hin Hbad)
      as (pre & x & post & Hsplit & Hpre & Hx).
    destruct (broadcast_first_failure msg w pre post x Hnodup Hsplit Hpre Hx)
      as (e & w' & _ & _ & _ & Hfail).
    eauto.
  - rewrite (disconnect_member w ws Hin). cbn [snd].
    set (w1 := set_records _ _).
    assert (active_connections w1 = filter (λ x, x ≠ ws) (active_connections w))
      as Hconns by done.
    destruct (broadcast_all_healthy msg w1) as (w2 & Hsame & Hrecv & _ & Hrun).
    { rewrite Hconns. by apply NoDup_filter. }
    { intros x. rewrite Hconns. intros [Hne Hx]%list_elem_of_filter.
      by apply Hothers. }
    eexists. split; [exact Hrun|].
    apply same_but_sockets_fields in Hsame as (_ & _ & Hconns2). split.
    + cbn [active_connections set_records]. rewrite Hconns2, Hconns.
      intros [Hne _]%list_elem_of_filter. done.
    + intros x Hx Hne. apply (Hrecv x). rewrite Hconns.
      by apply list_elem_of_filter.
Qed.

Lemma disconnect_unblocks_broadcast_witness :
  (∃ e w', _broadcast "tick" Examples.broken_then_open = (Raise e, w'))
  ∧ ∃ w2, _broadcast "tick" (_on_disconnect 1 Examples.broken_then_open).2 = (Ok tt, w2)
          ∧ (1 ∉ active_connections w2)
          ∧ ∀ x, x ∈ active_connections Examples.broken_then_open → x ≠ 1 →
              received Examples.broken_then_open w2 x "tick".
Proof.
  apply disconnect_unblocks_broadcast.
  - refine (bool_decide_unpack _ _). vm_compute. exact I.
  - change (1 ∈ [1; 0]). left.
  - intros (c & Hc & Hopen). vm_compute in Hc. injection Hc as <-. discriminate.
  - intros x Hx Hne. change (x ∈ [1; 0]) in Hx.
    apply elem_of_cons in Hx as [->|Hx]; [done|].
    apply elem_of_cons in Hx as [->|Hx]; [|inversion Hx].
    exists Examples.open_socket. split; reflexivity.
Defined.

(** ** A bind that fails *)

(** X16: when the endpoint is already bound, [config] raises the [OSError]
    of the bind and the process stays unconfigured: nothing is bound, the
    flag is still false, only the start of the server has been logged, and
    [execute] keeps raising the not-configured error. *)
Theorem config_bind_failure (w : World) (options : gmap string Z) :
  configured w = false →
  ("0.0.0.0", default 8080%Z (options !! "port")) ∈ busy w ++ listening w →
  (∃ msg, config options w
          = (Raise (OSError msg),
             set_records (λ r, r ++ [(INFO, "Starting Server...")]) w))
  ∧ ∀ self, (execute self (config options w).2).1 = Raise NotConfiguredError.
Proof.
  intros Hconf Hbusy.
  assert (config options w
          = (Raise (OSError "address already in use"),
             set_records (λ r, r ++ [(INFO, "Starting Server...")]) w)) as Hrun.
  { unfold config, bind at 1, get at 1. rewrite Hconf. cbn [negb].
    unfold bind at 1, log_info, modify at 1.
    unfold _run_async_server, bind at 1, site_start. project_world.
    by rewrite bool_decide_eq_true_2. }
  split; [eauto|]. intros self. rewrite Hrun. cbn [snd].
  unfold execute, bind, get. cbn [configured set_records]. by rewrite Hconf.
Qed.

Lemma config_bind_failure_witness :
  (∃ msg, config ∅ Examples.port_taken
          = (Raise (OSError msg),
             set_records (λ r, r ++ [(INFO, "Starting Server...")]) Examples.port_taken))
  ∧ ∀ self, (execute self (config ∅ Examples.port_taken).2).1
            = Raise NotConfiguredError.
Proof.
  apply config_bind_failure; [reflexivity|].
  change (("0.0.0.0", 8080%Z) ∈ [("0.0.0.0", 8080%Z)]). left.
Defined.

(** ** What a request leaves behind *)

Lemma contains_replace_self (c : ascii) (rep s : string) :
  Str.contains c rep = false → Str.contains c (Str.replace c rep s) = false.
Proof.
  intros Hrep. induction s as [|a s IH]; [done|]. cbn [Str.replace].
  destruct (Ascii.eqb a c) eqn:Hac.
  - by rewrite contains_app, Hrep, IH.
  - cbn [Str.contains]. by rewrite Hac, IH.
Qed.

Lemma contains_replace_other (c d : ascii) (rep s : string) :
  Str.contains d s = false → Str.contains d rep = false →
  Str.contains d (Str.replace c rep s) = false.
Proof.
  intros Hs Hrep. induction s as [|a s IH]; [done|].
  cbn [Str.contains Str.replace] in *.
  destruct (Ascii.eqb a d) eqn:Had; [discriminate|].
  destruct (Ascii.eqb a c).
  - by rewrite contains_app, Hrep, IH.
  - cbn [Str.contains]. by rewrite Had, IH.
Qed.

(** The escaped path has no raw line break. *)
Lemma escaped_no_line_break (path : string) :
  Str.contains Str.CR (escaped path) = false
  ∧ Str.contains Str.LF (escaped path) = false.
Proof.
  unfold escaped. split.
  - apply contains_replace_other; [|done]. by apply contains_replace_self.
  - by apply contains_replace_self.
Qed.

Lemma matching_paths_raise (l : list Wiresense) (n : string) (e : exn) :
  matching_paths l n = Raise e → e = AttributeError "csv_file_path".
Proof.
  induction l as [|a l IH]; [discriminate|]. simpl.
  destruct (String.eqb (name a) n); [|done].
  destruct (csv_file_path a); [|by intros [= <-]].
  destruct (matching_paths l n); [discriminate|]. intros [= <-]. by apply IH.
Qed.

(** X17: a request that is answered 404 cannot forge log lines.  It leaves
    exactly one record in the log, and the text of that record has no raw
    carriage return or line feed, whatever the request path contains. *)
Theorem not_found_log_record (w : World) (path : string) :
  (_handle_http_request path w).1 = Raise HTTPNotFound →
  ∃ m, records (_handle_http_request path w).2 = records w ++ [(INFO, m)]
       ∧ Str.contains Str.CR m = false ∧ Str.contains Str.LF m = false.
Proof.
  destruct (escaped_no_line_break path) as [HCR HLF].
  destruct (sensor_of_path path) as [n|] eqn:Hroute.
  - rewrite (handler_lookup w path n Hroute).
    destruct (matching_paths (sensors w) n) as [[|p ps]|e] eqn:Hpaths.
    + intros _. by eexists.
    + destruct (Str.is_empty p); [discriminate|].
      destruct (isfile w p); discriminate.
    + apply matching_paths_raise in Hpaths as ->. discriminate.
  - rewrite (handler_invalid_path w path Hroute). intros _. eexists.
    split; [reflexivity|]. by rewrite !contains_app, HCR, HLF.
Qed.

Lemma not_found_log_record_witness :
  ∃ m, records (_handle_http_request (String Str.LF "forged line")
                                      Examples.registered).2
       = records Examples.registered ++ [(INFO, m)]
       ∧ Str.contains Str.CR m = false ∧ Str.contains Str.LF m = false.
Proof. apply not_found_log_record. reflexivity. Defined.

(** X18: serving a request is read-only.  Whatever the path and however
    the handler ends, nothing of the state has changed but the log, which
    has gained records at its end: the registry, the storage and the
    connections are as before. *)
Theorem request_read_only (w : World) (path : string) :
  ∃ rs, (_handle_http_request path w).2 = set_records (λ r, r ++ rs) w.
Proof.
  assert (w = set_records (λ r, r ++ []) w) as Hsame.
  { unfold set_records. rewrite app_nil_r. by destruct w. }
  destruct (sensor_of_path path) as [n|] eqn:Hroute.
  - rewrite (handler_lookup w path n Hroute).
    destruct (matching_paths (sensors w) n) as [[|p ps]|e].
    + by eexists.
    + destruct (Str.is_empty p); [by exists []|].
      destruct (isfile w p); by eexists.
    + destruct (is_IndexError e); [by eexists|by exists []].
  - rewrite (handler_invalid_path w path Hroute). by eexists.
Qed.

(** ** The payload as a text *)



(** ** Ticks one after the other *)

Lemma broadcast_world (msg : string) (w : World) :
  ∃ ss rs, (_broadcast msg w).2 = set_records (λ _, rs) (set_sockets (λ _, ss) w).
Proof.
  unfold _broadcast, bind at 1, get at 1. unfold bind at 1.
  pose proof (for_each_send_frame msg (active_connections w) w) as Hframe.
  destruct (for_each _ _ w) as [[[]|e] w1]; cbn [snd] in Hframe; rewrite Hframe.
  - unfold log_info, modify. cbn [snd]. by eexists _, _.
  - cbn [snd]. exists (sockets w1), (records w). by destruct w.
Qed.

(** The state after a tick with a valid reading, whether or not the
    broadcast went through. *)
Lemma execute_world (w : World) (self : nat) (s : Wiresense)
    (items : list (string * scalar)) (path : string) :
  configured w = true →
  sensors w !! self = Some s →
  exec_function s (calls s) = Dict items → items ≠ [] →
  csv_file_path s = Some path → writable w path →
  ∃ ss rs,
    (execute self w).2
    = set_records (λ _, rs)
        (set_sockets (λ _, ss)
           (set_files
              (λ fs, <[path := default EmptyString (fs !! path)
                               +:+ Csv.writerow (PyInt (clock w) :: values items)]> fs)
              (set_sensors (λ l, alter with_call self l) w))).
Proof.
  intros Hconf Hself Hdata Hne Hpath Hwritable.
  rewrite (execute_appends w self s items path) by done. cbn zeta.
  set (payload_str := Json.dumps _). set (w1 := set_files _ _).
  destruct (broadcast_world payload_str w1) as (ss & rs & Hw).
  exists ss, rs. rewrite <-Hw. unfold bind.
  by destruct (_broadcast payload_str w1) as [[[]|e] w2].
Qed.

(** X20: the rows of a log are in the order of the ticks.  Two ticks of a
    sensor in a row, whether or not their broadcasts go through, call the
    reader twice and leave its two readings as two rows at the end of the log
    file, the earlier reading first. *)
Theorem execute_rows_in_order (w : World) (self : nat) (s : Wiresense)
    (items1 items2 : list (string * scalar)) (path : string) :
  configured w = true →
  sensors w !! self = Some s →
  exec_function s (calls s) = Dict items1 → items1 ≠ [] →
  exec_function s (S (calls s)) = Dict items2 → items2 ≠ [] →
  csv_file_path s = Some path → writable w path →
  let w2 := (execute self (execute self w).2).2 in
  files w2 !! path
  = Some (default EmptyString (files w !! path)
          +:+ Csv.writerow (PyInt (clock w) :: values items1)
          +:+ Csv.writerow (PyInt (clock w) :: values items2))
  ∧ sensors w2 !! self = Some (with_call (with_call s)).
Proof.
  intros Hconf Hself Hdata1 Hne1 Hdata2 Hne2 Hpath Hwritable w2. subst w2.
  destruct (execute_world w self s items1 path) as (ss1 & rs1 & ->); try done.
  set (w1 := set_records _ _).
  assert (sensors w1 !! self = Some (with_call s)) as Hself1.
  { subst w1. project_world. by rewrite list_lookup_alter_eq, Hself. }
  destruct (execute_world w1 self (with_call s) items2 path) as (ss2 & rs2 & ->);
    try done.
  { by apply (writable_same_dirs w). }
  subst w1. project_world. split.
  - rewrite lookup_insert_eq, lookup_insert_eq. cbn [default from_option id].
    by rewrite append_assoc.
  - rewrite list_lookup_alter_eq, list_lookup_alter_eq, Hself. done.
Qed.

Lemma execute_rows_in_order_witness :
  let w2 := (execute 0 (execute 0 Examples.swapped).2).2 in
  files w2 !! "data/ab_1700000000.csv"
  = Some (default EmptyString (files Examples.swapped !! "data/ab_1700000000.csv")
          +:+ Csv.writerow (PyInt 1700000000 :: values [("b", PyInt 2); ("a", PyInt 1)])
          +:+ Csv.writerow (PyInt 1700000000 :: values [("b", PyInt 2); ("a", PyInt 1)]))
  ∧ sensors w2 !! 0
    = Some (with_call (with_call (mkWiresense "ab" Examples.swapping 1 "data/ab.csv"
                                              (Some "data/ab_1700000000.csv")))).
Proof.
  apply (execute_rows_in_order Examples.swapped 0
           (mkWiresense "ab" Examples.swapping 1 "data/ab.csv"
                        (Some "data/ab_1700000000.csv")));
    try reflexivity; discriminate.
Defined.

(** ** The payload is one line of ASCII *)

Lemma all_printable_app (s t : string) :
  Json.all_printable (s +:+ t) = Json.all_printable s && Json.all_printable t.
Proof.
  induction s as [|a s IH]; [done|]. rewrite app_String. simpl.
  by rewrite IH, andb_assoc.
Qed.

Lemma escape_char_printable (c : ascii) :
  Json.all_printable (Json.escape_char c) = true.
Proof. destruct c as [[] [] [] [] [] [] [] []]; vm_compute; reflexivity. Qed.

Lemma encode_str_printable (s : string) :
  Json.all_printable (Json.encode_str s) = true.
Proof.
  unfold Json.encode_str.
  change (Json.all_printable (Json.escape s +:+ Str.str1 Str.dquote) = true).
  rewrite all_printable_app.
  assert (Json.all_printable (Json.escape s) = true) as ->; [|done].
  induction s as [|c s IH]; [done|]. cbn [Json.escape].
  by rewrite all_printable_app, escape_char_printable, IH.
Qed.

Lemma number_char_printable (c : ascii) :
  Json.number_char c = true → Json.printable c = true.
Proof.
  intros H. destruct c as [[] [] [] [] [] [] [] []];
    try (by vm_compute in H); reflexivity.
Qed.

Lemma number_chars_printable (s : string) :
  Json.all_number_chars s = true → Json.all_printable s = true.
Proof.
  induction s as [|c s IH]; [done|]. simpl.
  intros [Hc Hs]%andb_true_iff. by rewrite number_char_printable, IH.
Qed.

Lemma pretty_Z_printable (n : Z) : Json.all_printable (pretty n) = true.
Proof.
  apply number_chars_printable. unfold pretty, pretty_Z.
  destruct n as [|q|q]; [done| |].
  - destruct (pretty_N_digits (Npos q)) as (c & d & Hq & Hdigits & _).
    change (pretty q) with (pretty (Npos q)). rewrite Hq.
    by apply digits_number_chars.
  - destruct (pretty_N_digits (Npos q)) as (c & d & Hq & Hdigits & _).
    change (pretty q) with (pretty (Npos q)). rewrite Hq.
    change (Json.all_number_chars ("-" +:+ String c d))
      with (Json.all_number_chars (String c d)).
    by apply digits_number_chars.
Qed.

Lemma encode_scalar_printable (v : scalar) :
  float_ok v → Json.all_printable (Json.encode_scalar v) = true.
Proof.
  destruct v as [|[]|n|r|s]; cbn [Json.encode_scalar float_ok]; try done.
  - intros _. apply pretty_Z_printable.
  - intros Hr. destruct (float_literal_start r Hr) as (c & d & _ & _ & Hchars & _).
    by apply number_chars_printable.
  - intros _. apply encode_str_printable.
Qed.

Lemma join_printable (sep : string) (l : list string) :
  Json.all_printable sep = true →
  Forall (λ x, Json.all_printable x = true) l →
  Json.all_printable (Str.join sep l) = true.
Proof.
  intros Hsep. induction 1 as [|x l Hx Hl IH]; [done|].
  destruct l as [|y l]; [done|].
  change (Str.join sep (x :: y :: l)) with (x +:+ sep +:+ Str.join sep (y :: l)).
  by rewrite !all_printable_app, Hx, Hsep, IH.
Qed.

Lemma encode_dict_printable {V} (enc : V → string) (items : list (string * V)) :
  Forall (λ kv, Json.all_printable (enc kv.2) = true) items →
  Json.all_printable (Json.encode_dict enc items) = true.
Proof.
  intros Hitems. unfold Json.encode_dict. rewrite !all_printable_app.
  rewrite join_printable; [done|done|].
  apply Forall_fmap. eapply Forall_impl; [exact Hitems|].
  intros kv Hkv. cbn. by rewrite !all_printable_app, encode_str_printable, Hkv.
Qed.

Lemma printable_contains (c : ascii) (s : string) :
  Json.all_printable s = true → Json.printable c = false → Str.contains c s = false.
Proof.
  intros Hs Hc. induction s as [|a s IH]; [done|]. simpl in *.
  apply andb_true_iff in Hs as [Ha Hs].
  destruct (Ascii.eqb a c) eqn:Hac; [|by apply IH].
  apply Ascii.eqb_eq in Hac as ->. congruence.
Qed.

(** X21: a payload is one line of printable ASCII.  Whatever characters the
    name of the sensor, the keys and the string values of the reading have,
    the serialized payload is made of the characters from the space to the
    tilde only; in particular it has no carriage return and no line feed. *)
Theorem dumps_one_line (payload : list (string * pyobj)) :
  Forall (λ kv, floats_ok kv.2) payload →
  Json.all_printable (Json.dumps payload) = true
  ∧ Str.contains Str.CR (Json.dumps payload) = false
  ∧ Str.contains Str.LF (Json.dumps payload) = false.
Proof.
  intros Hfloats.
  assert (Json.all_printable (Json.dumps payload) = true) as Hprintable.
  { apply encode_dict_printable. eapply Forall_impl; [exact Hfloats|].
    intros [k [v|items]] Hok; cbn [snd Json.encode floats_ok] in *.
    - by apply encode_scalar_printable.
    - apply encode_dict_printable. eapply Forall_impl; [exact Hok|].
      intros kv Hkv. by apply encode_scalar_printable. }
  split; [done|]. split; by apply printable_contains.
Qed.

Lemma dumps_one_line_witness :
  let payload := [("key", Scalar (PyStr ("te" +:+ String Str.LF "mp")));
                  ("data", Examples.thermometer 0)] in
  Json.all_printable (Json.dumps payload) = true
  ∧ Str.contains Str.CR (Json.dumps payload) = false
  ∧ Str.contains Str.LF (Json.dumps payload) = false.
Proof. apply dumps_one_line. by repeat constructor. Defined.

(** ** The echo of a message *)

(** X22: the answer to a message goes to its sender alone.  [_on_message]
    logs the message and sends the sender the acknowledgement followed by a
    line feed and the message; no other connection is sent anything and the
    set of connections is untouched.  When the send fails the exception is
    raised, the message having been logged all the same. *)
Theorem message_echo (w : World) (ws : nat) (message : string) :
  let out := _on_message ws message w in
  active_connections out.2 = active_connections w
  ∧ records out.2 = records w ++ [(INFO, "Received message: " +:+ message)]
  ∧ (∀ x, x ≠ ws → sockets out.2 !! x = sockets w !! x)
  ∧ (∀ c, sockets w !! ws = Some c → closing c = false →
       out.1 = Ok tt
       ∧ sockets out.2 !! ws
         = Some (mkWebSocket
                   (sent c ++ ["Message received!" +:+ Str.str1 Str.LF +:+ message])
                   false))
  ∧ (¬ healthy w ws → ∃ e, out.1 = Raise e ∧ sockets out.2 = sockets w).
Proof.
  cbn zeta. unfold _on_message, bind, log_info, modify, send_str. project_world.
  destruct (sockets w !! ws) as [c|] eqn:Hc.
  - destruct (closing c) eqn:Hclosing; project_world.
    + do 3 (split; [done|]). split.
      * intros c' [= <-] Hopen. congruence.
      * intros _. by eexists.
    + do 2 (split; [done|]). split; [|split].
      * intros x Hne. by rewrite lookup_insert_ne.
      * intros c' [= <-] _. by rewrite lookup_insert_eq.
      * intros Hbad. exfalso. apply Hbad. by exists c.
  - do 3 (split; [done|]). split; [done|]. intros _. by eexists.
Qed.

Lemma message_echo_witness :
  let out := _on_message 0 "ping" Examples.two_clients in
  out.1 = Ok tt
  ∧ sockets out.2 !! 0
    = Some (mkWebSocket ["Message received!" +:+ Str.str1 Str.LF +:+ "ping"] false)
  ∧ sockets out.2 !! 1 = Some Examples.open_socket.
Proof.
  destruct (message_echo Examples.two_clients 0 "ping") as (_ & _ & Hothers & Hsender & _).
  destruct (Hsender Examples.open_socket) as [Hok Hsent]; [reflexivity..|].
  split; [exact Hok|]. split; [exact Hsent|].
  rewrite (Hothers 1); [reflexivity|lia].
Defined.

(** ** What a request can be answered with *)

Lemma matching_paths_head (l : list Wiresense) (n p : string) (ps : list string) :
  matching_paths l n = Ok (p :: ps) →
  ∃ s, s ∈ l ∧ name s = n ∧ csv_file_path s = Some p.
Proof.
  induction l as [|a l IH]; [discriminate|]. simpl.
  destruct (String.eqb (name a) n) eqn:Ha.
  - apply String.eqb_eq in Ha. destruct (csv_file_path a) as [q|] eqn:Hq; [|discriminate].
    destruct (matching_paths l n); [|discriminate]. intros [= -> _].
    exists a. split; [left|done].
  - intros (s & Hs & Hrest)%IH. exists s. split; [by right|done].
Qed.

(** X23: the handler serves log files of registered sensors and nothing
    else.  While the registry is as [__init__] keeps it, which it is in every
    reachable state, a request ends in one of four ways: a file response for
    the log path of the sensor the request names, that file being on the
    storage; 404; 500; or the [AttributeError] of a sensor whose registration
    was rejected after its name was taken.  No request path makes the handler
    name another file, and the handler never falls through without an
    answer. *)
Theorem request_serves_logs_only (w : World) (path : string) :
  registry_ok w →
  let r := (_handle_http_request path w).1 in
  (∃ s p, r = Ok (Some (FileResponse p [("Content-Type", "text/csv")]))
          ∧ s ∈ sensors w ∧ sensor_of_path path = Some (name s)
          ∧ csv_file_path s = Some p ∧ isfile w p = true)
  ∨ r = Raise HTTPNotFound
  ∨ r = Raise HTTPInternalServerError
  ∨ r = Raise (AttributeError "csv_file_path").
Proof.
  intros [_ Hall] r. subst r. rewrite Forall_forall in Hall.
  destruct (sensor_of_path path) as [n|] eqn:Hroute.
  - rewrite (handler_lookup w path n Hroute).
    destruct (matching_paths (sensors w) n) as [[|p ps]|e] eqn:Hpaths.
    + right. by left.
    + destruct (matching_paths_head _ _ _ _ Hpaths) as (s & Hin & <- & Hp).
      assert (Str.is_empty p = false) as ->.
      { destruct p; [|done]. by destruct (Hall s Hin) as [_ []]. }
      destruct (isfile w p) eqn:Hfile.
      * left. by exists s, p.
      * right. right. by left.
    + apply matching_paths_raise in Hpaths as ->. cbn [is_IndexError fst].
      by do 3 right.
  - rewrite (handler_invalid_path w path Hroute). right. by left.
Qed.

Lemma request_serves_logs_only_witness :
  let r := (_handle_http_request "temp/data.csv" Examples.registered).1 in
  (∃ s p, r = Ok (Some (FileResponse p [("Content-Type", "text/csv")]))
          ∧ s ∈ sensors Examples.registered
          ∧ sensor_of_path "temp/data.csv" = Some (name s)
          ∧ csv_file_path s = Some p ∧ isfile Examples.registered p = true)
  ∨ r = Raise HTTPNotFound
  ∨ r = Raise HTTPInternalServerError
  ∨ r = Raise (AttributeError "csv_file_path").
Proof.
  apply request_serves_logs_only. split.
  - change (NoDup ["temp"]). apply NoDup_singleton.
  - repeat constructor. discriminate.
Defined.

(** ** From the registration to the first row *)

(** A registration that returns leaves its log file open to later writes. *)
Lemma init_writable (w w' : World) (n : string) (f : nat → pyobj) (p : string)
    (self : nat) :
  __init__ n f p w = (Ok self, w') →
  writable w' ((OsPath.splitext p).1 +:+ "_" +:+ pretty (clock w)
               +:+ (OsPath.splitext p).2).
Proof.
  intros Hinit. destruct (init_ok_fresh _ _ _ _ _ _ Hinit) as [Hfree Hallowed].
  rewrite init_fresh in Hinit by done. cbn zeta in Hinit.
  destruct (invalid_reading (f 0)) eqn:Hvalid; [discriminate|].
  destruct (OsPath.splitext p) as [base_name ext]. cbn [fst snd].
  crunch; simplify_eq; project_world.
  unfold writable, open_for_writing, isdir in *. project_world.
  repeat match goal with H : _ = _ |- _ => rewrite H end. reflexivity.
Qed.

(** A call of [config] that returns leaves the process configured, and the
    registry, the storage and the clock as they were. *)
Lemma config_returns (w w' : World) (options : gmap string Z) :
  config options w = (Ok tt, w') →
  configured w' = true ∧ sensors w' = sensors w ∧ files w' = files w
  ∧ dirs w' = dirs w ∧ clock w' = clock w.
Proof.
  unfold config, _run_async_server. intros Hconfig.
  crunch; simplify_eq; project_world; try done.
  repeat split. by apply negb_false_iff.
Qed.

(** X24: the first row lies right under the header.  A registration that
    returns, a call of [config] that returns, and the first tick of the new
    sensor, whose reading is a non-empty mapping: whether or not the
    broadcast of the tick goes through, the log file then holds the header
    row of the reading taken at the registration followed by the row of the
    reading taken at the tick, and nothing else. *)
Theorem first_row_under_header (w w1 w2 : World) (n : string) (f : nat → pyobj)
    (p : string) (self : nat) (options : gmap string Z)
    (items : list (string * scalar)) :
  __init__ n f p w = (Ok self, w1) →
  config options w1 = (Ok tt, w2) →
  f 1 = Dict items → items ≠ [] →
  ∃ path header,
    sensors w2 !! self ≫= csv_file_path = Some path
    ∧ f 0 = Dict header
    ∧ files (execute self w2).2 !! path
      = Some (Csv.writerow (PyStr "timestamp" :: (PyStr <$> keys header))
              +:+ Csv.writerow (PyInt (clock w) :: values items)).
Proof.
  intros Hinit (Hon & Hsensors & Hfiles & Hdirs & Hclock)%config_returns Hitems Hne.
  pose proof (init_writable _ _ _ _ _ _ Hinit) as Hwritable.
  apply init_returns in Hinit as (header & Hheader & -> & Hs1 & Hfiles1 & Hclock1).
  set (path := (OsPath.splitext p).1 +:+ "_" +:+ pretty (clock w)
               +:+ (OsPath.splitext p).2) in *.
  assert (sensors w2 !! length (sensors w) = Some (mkWiresense n f 1 p (Some path)))
    as Hself.
  { by rewrite Hsensors, Hs1, lookup_app_last. }
  exists path, header. split; [by rewrite Hself|]. split; [done|].
  destruct (execute_world w2 (length (sensors w)) _ items path Hon Hself)
    as (ss & rs & ->); try done.
  { symmetry in Hdirs. by apply (writable_same_dirs w1). }
  project_world. rewrite lookup_insert_eq, Hfiles, Hfiles1, lookup_insert_eq.
  cbn [default from_option id]. by rewrite Hclock, Hclock1.
Qed.

Lemma first_row_under_header_witness :
  ∃ path header,
    sensors Examples.serving !! 0 ≫= csv_file_path = Some path
    ∧ Examples.thermometer 0 = Dict header
    ∧ files (execute 0 Examples.serving).2 !! path
      = Some (Csv.writerow (PyStr "timestamp" :: (PyStr <$> keys header))
              +:+ Csv.writerow (PyInt (clock Examples.fresh)
                                  :: values [("c", PyFloat "21.5")])).
Proof.
  apply (first_row_under_header Examples.fresh Examples.registered Examples.serving
           "temp" Examples.thermometer "data/temp.csv" 0 ∅ [("c", PyFloat "21.5")]).
  - vm_compute; reflexivity.
  - vm_compute; reflexivity.
  - reflexivity.
  - discriminate.
Defined.
